(** * Pedigree Organizer API: a shallow embedding of [main.py] and [schemas.py]

    The handlers of [main.py] are embedded as functions over an explicit
    store handle.  Python dictionaries are association lists in insertion
    order, exceptions are values of an error type, and the recursive
    pedigree walk is run with an explicit recursion budget so that its
    termination is a theorem rather than a by-product of the encoding. *)

From Stdlib Require Import ZArith NArith List Bool Ascii String Lia.
Import ListNotations.
Set Warnings "-register-all".
Open Scope string_scope.

(* ================================================================== *)
(** ** Python strings (ASCII texts) *)

Module PyStr.

Definition code (c : ascii) : nat := nat_of_ascii c.

Definition between (lo hi n : nat) : bool := (lo <=? n)%nat && (n <=? hi)%nat.

(** [c.lower()] on one ASCII character. *)
Definition lower_char (c : ascii) : ascii :=
  if between 65 90 (code c) then ascii_of_nat (code c + 32) else c.

(** [s.lower()] *)
Fixpoint lower (s : string) : string :=
  match s with
  | EmptyString => EmptyString
  | String c r => String (lower_char c) (lower r)
  end.

(** [c.isspace()] for the ASCII range: tab, line feed, vertical tab,
    form feed, carriage return, the four separators 28..31 and space. *)
Definition isspace (c : ascii) : bool :=
  between 9 13 (code c) || between 28 32 (code c).

Fixpoint all_chars (p : ascii -> bool) (s : string) : bool :=
  match s with
  | EmptyString => true
  | String c r => p c && all_chars p r
  end.

(** [s.startswith(p)] *)
Fixpoint startswith (p s : string) : bool :=
  match p, s with
  | EmptyString, _ => true
  | String _ _, EmptyString => false
  | String a p', String b s' => Ascii.eqb a b && startswith p' s'
  end.

(** [needle in hay] *)
Fixpoint contains (needle hay : string) : bool :=
  startswith needle hay ||
  match hay with
  | EmptyString => false
  | String _ r => contains needle r
  end.

(** [s.split(sep)[0]] for a non-empty separator: the text before the
    leftmost occurrence of [sep], the whole of [s] when there is none. *)
Fixpoint split_head (sep s : string) : string :=
  match s with
  | EmptyString => EmptyString
  | String c r => if startswith sep s then EmptyString
                  else String c (split_head sep r)
  end.

(** [s.lstrip()] *)
Fixpoint lstrip (s : string) : string :=
  match s with
  | EmptyString => EmptyString
  | String c r => if isspace c then lstrip r else s
  end.

(** [s.rstrip()] *)
Fixpoint rstrip (s : string) : string :=
  match s with
  | EmptyString => EmptyString
  | String c r =>
      match rstrip r with
      | EmptyString => if isspace c then EmptyString else String c EmptyString
      | r' => String c r'
      end
  end.

(** [s.strip()] *)
Definition strip (s : string) : string := rstrip (lstrip s).

(** [s[:-3]] *)
Definition drop_last3 (s : string) : string :=
  substring 0 (String.length s - 3) s.

(** truthiness of a string: [bool(s)] *)
Definition nonempty (s : string) : bool :=
  match s with EmptyString => false | String _ _ => true end.

End PyStr.

(* ================================================================== *)
(** ** [bson.ObjectId] *)

Module Bson.

(** An identifier is kept in the form [str(oid)] prints it: 24 lower-case
    hexadecimal digits. *)
Record ObjectId : Type := MkObjectId { oid_hex : string }.

Definition is_hex (c : ascii) : bool :=
  PyStr.between 48 57 (PyStr.code c)
  || PyStr.between 65 70 (PyStr.code c)
  || PyStr.between 97 102 (PyStr.code c).

(** [ObjectId.is_valid(s)] for a string. *)
Definition is_valid (s : string) : bool :=
  (String.length s =? 24)%nat && PyStr.all_chars is_hex s.

(** [ObjectId(s)] for a string [s]; [None] stands for [InvalidId]. *)
Definition of_str (s : string) : option ObjectId :=
  if is_valid s then Some (MkObjectId (PyStr.lower s)) else None.

(** [str(oid)] *)
Definition str (o : ObjectId) : string := oid_hex o.

(** [a == b] *)
Definition eqb (a b : ObjectId) : bool := String.eqb (oid_hex a) (oid_hex b).

Definition hex_digit (n : N) : ascii :=
  if (n <? 10)%N then ascii_of_N (48 + n) else ascii_of_N (87 + n).

(** The [k] low hexadecimal digits of [n], most significant first. *)
Fixpoint hex_digits (k : nat) (n : N) : string :=
  match k with
  | O => EmptyString
  | S k' => hex_digits k' (n / 16)%N ++ String (hex_digit (n mod 16)%N) EmptyString
  end.

End Bson.

Abbreviation ObjectId := Bson.ObjectId.

(* ================================================================== *)
(** ** Python values and dictionaries *)

(** The values that occur in stored documents and in JSON bodies and
    responses.  A dictionary lists its items in insertion order and holds
    each key once. *)
Inductive value : Type :=
| VNone
| VInt (z : Z)
| VStr (s : string)
| VOid (o : ObjectId)
| VList (l : list value)
| VDict (d : list (string * value)).

Definition dict : Type := list (string * value).

(** [d.get(k)]; a missing key is [None] here and [VNone] after [get_or_none]. *)
Fixpoint dict_get (d : dict) (k : string) : option value :=
  match d with
  | [] => None
  | (k', v) :: r => if String.eqb k' k then Some v else dict_get r k
  end.

Definition get_or_none (d : dict) (k : string) : value :=
  match dict_get d k with Some v => v | None => VNone end.

(** [d[k] = v]: an existing key keeps its place, a new key goes last. *)
Fixpoint dict_set (d : dict) (k : string) (v : value) : dict :=
  match d with
  | [] => [(k, v)]
  | (k', v') :: r =>
      if String.eqb k' k then (k, v) :: r else (k', v') :: dict_set r k v
  end.

(** [d.pop(k)] as far as the remaining dictionary goes. *)
Fixpoint dict_pop (d : dict) (k : string) : dict :=
  match d with
  | [] => []
  | (k', v') :: r => if String.eqb k' k then r else (k', v') :: dict_pop r k
  end.


(** [bool(v)] *)
Definition truthy (v : value) : bool :=
  match v with
  | VNone => false
  | VInt z => negb (z =? 0)%Z
  | VStr s => PyStr.nonempty s
  | VOid _ => true
  | VList l => match l with [] => false | _ => true end
  | VDict d => match d with [] => false | _ => true end
  end.

(* ================================================================== *)
(** ** Exceptions and outcomes *)

Inductive exn : Type :=
| TypeError                                       (* e.g. [None["dog"]] *)
| InvalidId                                       (* [bson.errors.InvalidId] *)
| StoreError (msg : string)                       (* raised by [database.py] *)
| RequestValidationError (field : string)         (* FastAPI body validation *)
| ValidationError (field : string)                (* [pydantic.ValidationError] *)
| HTTPException (status_code : Z) (detail : string).

Inductive outcome (A : Type) : Type :=
| Return (a : A)
| Raise (e : exn).
Arguments Return {A} a.
Arguments Raise {A} e.

(** The status FastAPI answers with for an exception that leaves a handler. *)
Definition status_of (e : exn) : Z :=
  match e with
  | HTTPException s _ => s
  | RequestValidationError _ => 422
  | _ => 500
  end.

(** [ObjectId(v)] for a value other than [None] (no call site in [main.py]
    passes [None]: [fetch] tests [if nid] first and path ids are strings). *)
Definition ObjectId_of (v : value) : exn + ObjectId :=
  match v with
  | VOid o => inr o
  | VStr s => match Bson.of_str s with Some o => inr o | None => inl InvalidId end
  | _ => inl TypeError
  end.

(* ================================================================== *)
(** ** The store handle [db] *)

Definition collection : Type := list dict.

(** The database behind the handle: the ["dog"] collection and the number
    of identifiers handed out so far. *)
Record Database : Type := MkDatabase {
  dog : collection;
  minted : N
}.

(** [database.db]: [None] when no connection string was configured. *)
Definition handle : Type := option Database.

Definition has_id (o : ObjectId) (doc : dict) : bool :=
  match dict_get doc "_id" with
  | Some (VOid o') => Bson.eqb o' o
  | _ => false
  end.

(** [coll.find_one({"_id": o})] *)
Definition find_one (coll : collection) (o : ObjectId) : option dict :=
  find (has_id o) coll.

(** [db["dog"].find_one({"_id": ObjectId(idv)})]: subscripting the handle
    comes first, then the identifier is built, then the lookup runs. *)
Definition find_dog (db : handle) (idv : value) : exn + option dict :=
  match db with
  | None => inl TypeError
  | Some d =>
      match ObjectId_of idv with
      | inl e => inl e
      | inr o => inr (find_one (dog d) o)
      end
  end.

(** [not doc] for what [find_one] returned. *)
Definition present (doc : option dict) : option dict :=
  match doc with
  | Some ((_ :: _) as d) => Some d
  | _ => None
  end.

(* ================================================================== *)
(** ** [to_public] *)

Definition to_public (doc : dict) : dict :=
  match doc with
  | [] => doc
  | _ :: _ =>
      match dict_get doc "_id" with
      | Some (VOid o) => dict_set (dict_pop doc "_id") "id" (VStr (Bson.str o))
      | _ => doc
      end
  end.

(* ================================================================== *)
(** ** [get_dog] *)

Definition get_dog (db : handle) (dog_id : string) : outcome dict :=
  match find_dog db (VStr dog_id) with
  | inl _ => Raise (HTTPException 400 "Invalid ID")
  | inr doc =>
      match present doc with
      | None => Raise (HTTPException 404 "Dog not found")
      | Some d => Return (to_public d)
      end
  end.

(* ================================================================== *)
(** ** [get_pedigree] and its inner [fetch] *)

Definition rels : list string := ["sire_id"; "dam_id"].

(** One round of the loop [for rel in ["sire_id", "dam_id"]] of [fetch]:
    [recur] is the recursive call [fetch(target, level + 1)], which answers
    [None] only when the recursion budget is spent. *)
Definition fetch_rel (db : handle) (node : dict)
    (recur : dict -> option dict) (acc : option dict) (rel : string)
  : option dict :=
  match acc with
  | None => None
  | Some result =>
      let key := PyStr.drop_last3 rel in
      let nid := get_or_none node rel in
      if truthy nid then
        match find_dog db nid with
        | inl _ => Some (dict_set result key VNone)
        | inr target =>
            match present target with
            | Some t =>
                match recur t with
                | Some sub => Some (dict_set result key (VDict sub))
                | None => None
                end
            | None => Some (dict_set result key VNone)
            end
        end
      else Some (dict_set result key VNone)
  end.

(** [fetch(node, level)] with [depth] and [db] from the enclosing scope.
    Every call, the first included, takes one unit of [fuel]; [None] means
    the budget ran out before the call returned. *)
Fixpoint fetch (fuel : nat) (db : handle) (depth : Z) (node : dict) (level : Z)
  : option dict :=
  match fuel with
  | O => None
  | S fuel' =>
      if (level >=? depth)%Z then Some (to_public node)
      else
        fold_left
          (fetch_rel db node (fun t => fetch fuel' db depth t (level + 1)%Z))
          rels (Some (to_public node))
  end.

(** The budget that [fetch] needs at [level]. *)
Definition budget (depth level : Z) : nat := S (Z.to_nat (depth - level)).

Definition get_pedigree (fuel : nat) (db : handle) (dog_id : string) (depth : Z)
  : option (outcome dict) :=
  match find_dog db (VStr dog_id) with
  | inl _ => Some (Raise (HTTPException 400 "Invalid ID"))
  | inr root =>
      match present root with
      | None => Some (Raise (HTTPException 404 "Dog not found"))
      | Some r =>
          match fetch fuel db depth r 0 with
          | Some tree => Some (Return tree)
          | None => None
          end
      end
  end.

(* ================================================================== *)
(** ** The regular expressions of a [$regex] filter

    [list_dogs] hands its search text to the store as a regular expression.
    The fragment embedded here has literal characters, [.], an escaped
    metacharacter, and the greedy quantifiers [*], [+] and [?] on one
    character; a pattern outside it has no model ([parse] answers [None]). *)

Module Regex.

Inductive atom : Type :=
| Lit (c : ascii)
| AnyChar.

Inductive quant : Type := One | Star | Plus | Opt.

Inductive token : Type :=
| TAtom (a : atom)
| TQuant (q : quant)
| TOther.

Definition metachars : string := "\^$.|?*+()[]{}".

Fixpoint mem_char (c : ascii) (s : string) : bool :=
  match s with
  | EmptyString => false
  | String x r => Ascii.eqb x c || mem_char c r
  end.

Definition is_meta (c : ascii) : bool := mem_char c metachars.

Definition plain_token (c : ascii) : token :=
  if Ascii.eqb c "." then TAtom AnyChar
  else if Ascii.eqb c "*" then TQuant Star
  else if Ascii.eqb c "+" then TQuant Plus
  else if Ascii.eqb c "?" then TQuant Opt
  else if is_meta c then TOther
  else TAtom (Lit c).

Fixpoint tokens (s : string) : list token :=
  match s with
  | EmptyString => []
  | String c r =>
      if Ascii.eqb c "\" then
        match r with
        | EmptyString => [TOther]
        | String e r' => (if is_meta e then TAtom (Lit e) else TOther) :: tokens r'
        end
      else plain_token c :: tokens r
  end.

Definition item : Type := atom * quant.

Fixpoint items (ts : list token) : option (list item) :=
  match ts with
  | [] => Some []
  | TAtom a :: rest =>
      match rest with
      | TQuant q :: rest' => option_map (cons (a, q)) (items rest')
      | _ => option_map (cons (a, One)) (items rest)
      end
  | _ => None
  end.

Definition parse (pattern : string) : option (list item) :=
  items (tokens pattern).

Definition newline : ascii := ascii_of_nat 10.

(** Does the atom accept the character?  [ci] is the option [i]. *)
Definition accepts (ci : bool) (a : atom) (c : ascii) : bool :=
  match a with
  | Lit x =>
      if ci then Ascii.eqb (PyStr.lower_char x) (PyStr.lower_char c)
      else Ascii.eqb x c
  | AnyChar => negb (Ascii.eqb c newline)
  end.

(** Zero or more characters accepted by [p], then [k] on the rest. *)
Fixpoint star (p : ascii -> bool) (k : string -> bool) (s : string) : bool :=
  k s ||
  match s with
  | EmptyString => false
  | String c r => p c && star p k r
  end.

Definition one (p : ascii -> bool) (k : string -> bool) (s : string) : bool :=
  match s with
  | EmptyString => false
  | String c r => p c && k r
  end.

(** Does a match of the items start at the head of [s]? *)
Fixpoint match_here (ci : bool) (its : list item) (s : string) : bool :=
  match its with
  | [] => true
  | (a, q) :: rest =>
      let p := accepts ci a in
      let k := match_here ci rest in
      match q with
      | One => one p k s
      | Opt => one p k s || k s
      | Star => star p k s
      | Plus => one p (star p k) s
      end
  end.

(** Does a match start anywhere in [s]? *)
Fixpoint search (ci : bool) (its : list item) (s : string) : bool :=
  match_here ci its s ||
  match s with
  | EmptyString => false
  | String _ r => search ci its r
  end.

(** [{"$regex": pattern, "$options": options}] against a text. *)
Definition regex_search (pattern options subject : string) : option bool :=
  match parse pattern with
  | Some its => Some (search (mem_char "i" options) its subject)
  | None => None
  end.

End Regex.

(* ================================================================== *)
(** ** [database.py]: [get_documents] and [create_document] *)

(** The two filters [list_dogs] builds: [{}] and
    [{"name": {"$regex": q, "$options": "i"}}]. *)
Inductive query : Type :=
| QAll
| QNameRegex (pattern options : string).

(** The predicate a filter stands for; [None] when its pattern lies
    outside the embedded fragment. *)
Definition selects (filt : query) : option (dict -> bool) :=
  match filt with
  | QAll => Some (fun _ => true)
  | QNameRegex p o =>
      match Regex.parse p with
      | Some its =>
          Some (fun doc =>
                  match dict_get doc "name" with
                  | Some (VStr n) => Regex.search (Regex.mem_char "i" o) its n
                  | _ => false
                  end)
      | None => None
      end
  end.

(** Modelled from the spec: [get_documents] of [database.py], which is not
    among the sources.  Section 4.1: the records that match, in store
    order, at most [limit] of them; without a live store the call fails. *)
Definition get_documents (db : handle) (filt : query) (limit : Z)
  : option (outcome (list dict)) :=
  match selects filt with
  | None => None
  | Some keep =>
      match db with
      | None => Some (Raise (StoreError "Database not available"))
      | Some d => Some (Return (firstn (Z.to_nat limit) (filter keep (dog d))))
      end
  end.

(* ================================================================== *)
(** ** [schemas.Dog] and [main.DogCreate] *)

(** Field validation answers with the offending field on failure. *)
Definition checked (A : Type) : Type := string + A.

Definition bind {A B : Type} (m : checked A) (f : A -> checked B) : checked B :=
  match m with
  | inl field => inl field
  | inr a => f a
  end.

Notation "x <- m ;; k" := (bind m (fun x => k))
  (at level 61, m at next level, right associativity).

(** [name: str], required. *)
Definition field_str (d : dict) (k : string) : checked string :=
  match dict_get d k with
  | Some (VStr s) => inr s
  | _ => inl k
  end.

(** [Optional[str] = None] *)
Definition field_opt_str (d : dict) (k : string) : checked (option string) :=
  match dict_get d k with
  | None | Some VNone => inr None
  | Some (VStr s) => inr (Some s)
  | _ => inl k
  end.

(** [Optional[int] = None] (the coercion of numeric text is left out). *)
Definition field_opt_int (d : dict) (k : string) : checked (option Z) :=
  match dict_get d k with
  | None | Some VNone => inr None
  | Some (VInt z) => inr (Some z)
  | _ => inl k
  end.

Fixpoint all_str (l : list value) : option (list string) :=
  match l with
  | [] => Some []
  | VStr s :: r => option_map (cons s) (all_str r)
  | _ => None
  end.

(** [List[str] = []] *)
Definition field_str_list (d : dict) (k : string) : checked (list string) :=
  match dict_get d k with
  | None => inr []
  | Some (VList l) => match all_str l with Some ss => inr ss | None => inl k end
  | _ => inl k
  end.

Definition opt_str_value (o : option string) : value :=
  match o with Some s => VStr s | None => VNone end.

Definition opt_int_value (o : option Z) : value :=
  match o with Some z => VInt z | None => VNone end.

Module Dog.

Record t : Type := Make {
  name : string;
  op_id : option Z;
  sex : option string;
  color : option string;
  birth_date : option string;
  sire_id : option string;
  dam_id : option string;
  tags : list string;
  source_url : option string;
  notes : option string
}.

(** The constructor [Dog] applied to the keyword arguments [d]. *)
Definition validate (d : dict) : checked t :=
  name <- field_str d "name" ;;
  op_id <- field_opt_int d "op_id" ;;
  sex <- field_opt_str d "sex" ;;
  color <- field_opt_str d "color" ;;
  birth_date <- field_opt_str d "birth_date" ;;
  sire_id <- field_opt_str d "sire_id" ;;
  dam_id <- field_opt_str d "dam_id" ;;
  tags <- field_str_list d "tags" ;;
  source_url <- field_opt_str d "source_url" ;;
  notes <- field_opt_str d "notes" ;;
  inr (Make name op_id sex color birth_date sire_id dam_id tags
         source_url notes).

(** [dog.model_dump()] *)
Definition model_dump (x : t) : dict :=
  [ ("name", VStr (name x));
    ("op_id", opt_int_value (op_id x));
    ("sex", opt_str_value (sex x));
    ("color", opt_str_value (color x));
    ("birth_date", opt_str_value (birth_date x));
    ("sire_id", opt_str_value (sire_id x));
    ("dam_id", opt_str_value (dam_id x));
    ("tags", VList (map VStr (tags x)));
    ("source_url", opt_str_value (source_url x));
    ("notes", opt_str_value (notes x)) ].

End Dog.

Module DogCreate.

(** [DogCreate] declares the fields of [Dog] with the same types. *)
Definition t : Type := Dog.t.

(** The request body against [DogCreate]; a body that is not a JSON
    object fails as a whole. *)
Definition validate (body : value) : checked t :=
  match body with
  | VDict d => Dog.validate d
  | _ => inl "body"
  end.

Definition model_dump : t -> dict := Dog.model_dump.

End DogCreate.

(** The document of a dog as the store keeps it. *)
Definition stored (oid : ObjectId) (x : Dog.t) : dict :=
  ("_id", VOid oid) :: Dog.model_dump x.

(** Modelled from the spec: [create_document] of [database.py], which is
    not among the sources.  Section 4.1: assigns a new identifier,
    persists the record, returns the identifier; without a live store the
    call fails and nothing is written. *)
Definition create_document (db : handle) (x : Dog.t) : handle * outcome string :=
  match db with
  | None => (db, Raise (StoreError "Database not available"))
  | Some d =>
      let oid := Bson.MkObjectId (Bson.hex_digits 24 (minted d)) in
      (Some (MkDatabase (dog d ++ [stored oid x])%list (minted d + 1)%N),
       Return (Bson.str oid))
  end.

(* ================================================================== *)
(** ** [create_dog] *)

Definition create_dog (db : handle) (body : value) : handle * outcome dict :=
  match DogCreate.validate body with
  | inl field => (db, Raise (RequestValidationError field))
  | inr payload =>
      let data := DogCreate.model_dump payload in
      match Dog.validate data with
      | inl field => (db, Raise (ValidationError field))
      | inr x =>
          match create_document db x with
          | (db', Return new_id) => (db', Return [("id", VStr new_id)])
          | (db', Raise e) => (db', Raise e)
          end
      end
  end.

(* ================================================================== *)
(** ** [list_dogs] *)

Definition list_dogs (db : handle) (q : option string) (limit : option Z)
  : option (outcome (list dict)) :=
  let limit := match limit with Some n => n | None => 50%Z end in
  let filt :=
    match q with
    | Some s => if PyStr.nonempty s then QNameRegex s "i" else QAll
    | None => QAll
    end in
  match get_documents db filt limit with
  | Some (Return docs) => Some (Return (map to_public docs))
  | Some (Raise e) => Some (Raise e)
  | None => None
  end.

(* ================================================================== *)
(** ** [import_from_op] *)

(** What [requests.get(url, timeout=...)] followed by [raise_for_status()]
    comes back with: an exception, of which only [str(e)] is used, or the
    text of the page. *)
Inductive fetched : Type :=
| FetchRaised (cause : string)
| Fetched (text : string).

(** What [BeautifulSoup(text, "html.parser")] and [soup.title.string] come
    back with. *)
Inductive parsed : Type :=
| SoupRaised
| NoTitle
| Title (content : option string).

(** The outside world of the importer. *)
Record World : Type := MkWorld {
  requests_get : string -> Z -> fetched;   (* url, timeout *)
  soup_title : string -> parsed
}.

Definition placeholder_name : string := "Imported Dog".

Definition import_note : string :=
  "Imported from APBT Online Pedigrees (metadata only)".

(** The [try] block that guesses the name: [None] is Python's [None]. *)
Definition guess_name (p : parsed) : option string :=
  match p with
  | Title (Some title) =>
      if PyStr.nonempty title
      then Some (PyStr.strip (PyStr.split_head "- " title))
      else None
  | _ => None
  end.

(** [if not name: name = "Imported Dog"] *)
Definition name_or_placeholder (guess : option string) : string :=
  match guess with
  | Some n => if PyStr.nonempty n then n else placeholder_name
  | None => placeholder_name
  end.

Definition imported_dog (nm url : string) : Dog.t :=
  Dog.Make nm None None None None None None [] (Some url) (Some import_note).

Definition import_from_op (w : World) (db : handle) (url : string)
  : handle * outcome dict :=
  match requests_get w url 10 with
  | FetchRaised cause =>
      (db, Raise (HTTPException 400 ("Failed to fetch: " ++ cause)))
  | Fetched text =>
      let nm := name_or_placeholder (guess_name (soup_title w text)) in
      match create_document db (imported_dog nm url) with
      | (db', Return new_id) =>
          (db', Return [("id", VStr new_id); ("name", VStr nm)])
      | (db', Raise e) => (db', Raise e)
      end
  end.

(* ================================================================== *)
(** ** Reading a pedigree tree *)

(** The number of nested non-null ["sire"] nodes below the root of a tree. *)
Fixpoint sire_levels (t : value) : nat :=
  match t with
  | VDict d =>
      (fix walk (kvs : list (string * value)) : nat :=
         match kvs with
         | [] => O
         | (k, v) :: r =>
             if String.eqb k "sire"
             then match v with VNone => O | _ => S (sire_levels v) end
             else walk r
         end) d
  | _ => O
  end.


(** What one round of the loop of [fetch] stores under the child key for
    the reference [nid]: null, or the tree of the record it names. *)
Definition branch (db : handle) (recur : dict -> option dict) (nid : value)
  : option value :=
  if truthy nid then
    match find_dog db nid with
    | inl _ => Some VNone
    | inr target =>
        match present target with
        | Some t => option_map VDict (recur t)
        | None => Some VNone
        end
    end
  else Some VNone.

(** A reference that [fetch] cannot follow: absent or falsy, rejected by
    [ObjectId] or by the store handle, or naming no record. *)
Definition unresolved (db : handle) (nid : value) : Prop :=
  truthy nid = false
  \/ (exists e, find_dog db nid = inl e)
  \/ (exists found, find_dog db nid = inr found /\ present found = None).


(** Case-insensitive containment of the search text in a record's name. *)
Definition name_contains (q : string) (doc : dict) : bool :=
  match dict_get doc "name" with
  | Some (VStr n) => PyStr.contains (PyStr.lower q) (PyStr.lower n)
  | _ => false
  end.

(** The items of a pattern made of literal characters only. *)
Fixpoint literal (s : string) : list Regex.item :=
  match s with
  | EmptyString => []
  | String c r => (Regex.Lit c, Regex.One) :: literal r
  end.

(** The text of a JSON body's [name], when it has one. *)
Definition name_text (body : value) : option string :=
  match body with
  | VDict d =>
      match dict_get d "name" with
      | Some (VStr s) => Some s
      | _ => None
      end
  | _ => None
  end.

(** [n] copies of a character. *)
Fixpoint replicate (n : nat) (c : ascii) : string :=
  match n with
  | O => EmptyString
  | S n' => String c (replicate n' c)
  end.

(** A search text without regular-expression metacharacters. *)
Definition plain (q : string) : bool :=
  PyStr.all_chars (fun c => negb (Regex.is_meta c)) q.

(* ================================================================== *)
(** ** Sample records *)

Module Sample.

Definition id_a : string := "64b7f0a1c2d3e4f5a6b7c8d9".
Definition id_b : string := "64b7f0a1c2d3e4f5a6b7c8da".
Definition id_c : string := "64b7f0a1c2d3e4f5a6b7c8db".
Definition id_x : string := "64b7f0a1c2d3e4f5a6b7c8dc".
Definition id_free : string := "ffffffffffffffffffffffff".

Definition oid (s : string) : ObjectId := Bson.MkObjectId s.

Definition named (nm : string) (sire dam : option string) : Dog.t :=
  Dog.Make nm None None None None sire dam [] None None.

(** A chain: [grand] has no parents, [father] names [grand] as sire,
    [pup] names [father] as sire. *)
Definition grand : dict := stored (oid id_a) (named "Grand" None None).
Definition father : dict := stored (oid id_b) (named "Father" (Some id_a) None).
Definition pup : dict := stored (oid id_c) (named "Pup" (Some id_b) None).

(** A record that names itself as its sire and a malformed dam. *)
Definition ouroboros : dict :=
  stored (oid id_x) (named "Ouroboros" (Some id_x) (Some "not-an-id")).

Definition kennel : Database :=
  MkDatabase [grand; father; pup; ouroboros] 4.



(** Records for the name search. *)
Definition rex : dict := stored (oid id_a) (named "T-Rex Junior" None None).
Definition rox : dict := stored (oid id_b) (named "Rox" None None).
Definition yard : Database := MkDatabase [rex; rox] 2.

(** A world in which every fetch fails with a long message. *)
Definition long_cause : string :=
  "HTTPSConnectionPool(host='apbt.online-pedigrees.com', port=443): Max retries exceeded with url: /modules.php (Caused by ConnectTimeoutError)".

Definition offline : World :=
  MkWorld (fun _ _ => FetchRaised long_cause) (fun _ => NoTitle).

(** A world that serves one page whose title is the text served. *)
Definition serving (title : string) : World :=
  MkWorld (fun _ _ => Fetched title) (fun text => Title (Some text)).

End Sample.

(* ================================================================== *)
(** ** [test_database] *)

(** [s[:n]] *)
Definition str_take (n : nat) (s : string) : string := substring 0 n s.

(** What [db.list_collection_names()] comes back with: the names, or an
    exception of which only [str(e)] is used. *)
Inductive listing : Type :=
| ListingRaised (msg : string)
| Listing (names : list string).

(** The members of the store handle that [test_database] reads. *)
Record Connection : Type := MkConnection {
  conn_name : string;                 (* [db.name] *)
  list_collection_names : listing
}.

Definition initial_report : dict :=
  [ ("backend", VStr "✅ Running");
    ("database", VStr "❌ Not Available");
    ("database_url", VNone);
    ("database_name", VNone);
    ("connection_status", VStr "Not Connected");
    ("collections", VList []) ].

(** [database_url] is [os.getenv("DATABASE_URL")]; [db] is the handle.
    Nothing in the outer [try] block raises outside the inner one, which
    has its own handler. *)
Definition test_database (database_url : option string) (db : option Connection)
  : dict :=
  let response := initial_report in
  match db with
  | Some c =>
      let response := dict_set response "database" (VStr "✅ Available") in
      let response :=
        dict_set response "database_url"
          (VStr (if truthy (opt_str_value database_url)
                 then "✅ Set" else "❌ Not Set")) in
      let response := dict_set response "database_name" (VStr (conn_name c)) in
      let response := dict_set response "connection_status" (VStr "Connected") in
      match list_collection_names c with
      | Listing collections =>
          let response :=
            dict_set response "collections"
              (VList (map VStr (firstn 10 collections))) in
          dict_set response "database" (VStr "✅ Connected & Working")
      | ListingRaised e =>
          dict_set response "database"
            (VStr ("⚠️  Connected but Error: " ++ str_take 80 e))
      end
  | None =>
      dict_set response "database" (VStr "⚠️  Available but not initialized")
  end.

(* ================================================================== *)
(** ** Further readings of documents and trees *)

(** The keys of a dictionary, in order. *)
Definition keys (d : dict) : list string := map fst d.

(** A dictionary holds each key once. *)
Definition well_keyed (d : dict) : Prop := NoDup (keys d).

(** The number of nodes of a pedigree tree: the node itself and the nodes
    under its ["sire"] and ["dam"] items. *)
Fixpoint tree_nodes (t : value) : nat :=
  match t with
  | VDict d =>
      S ((fix walk (kvs : list (string * value)) : nat :=
            match kvs with
            | [] => O
            | (k, v) :: r =>
                ((if String.eqb k "sire" || String.eqb k "dam"
                  then tree_nodes v else O) + walk r)%nat
            end) d)
  | _ => O
  end.

(** The records that [create_dog] and [import_from_op] write: a schema
    dog under an [ObjectId]. *)
Definition schema_doc (doc : dict) : Prop :=
  exists o x, doc = stored o x.

Definition schema_store (db : handle) : Prop :=
  forall d, db = Some d -> forall doc, In doc (dog d) -> schema_doc doc.

(** The field names of [Dog]. *)
Definition dog_fields : list string :=
  ["name"; "op_id"; "sex"; "color"; "birth_date"; "sire_id"; "dam_id";
   "tags"; "source_url"; "notes"].

Module Family.



Definition broken : Connection :=
  MkConnection "pedigree" (ListingRaised Sample.long_cause).

Definition busy : Connection :=
  MkConnection "pedigree"
    (Listing ["a"; "b"; "c"; "d"; "e"; "f"; "g"; "h"; "i"; "j"; "k"; "l"]).

End Family.

(* ================================================================== *)
(** * Properties *)

(** ** Dictionaries *)

Lemma dict_get_set_same (d : dict) (k : string) (v : value) :
  dict_get (dict_set d k v) k = Some v.
Proof.
  induction d as [|[k' v'] r IH]; simpl.
  - now rewrite String.eqb_refl.
  - destruct (String.eqb k' k) eqn:E; simpl.
    + now rewrite String.eqb_refl.
    + now rewrite E.
Qed.

Lemma dict_get_set_other (d : dict) (k k' : string) (v : value) :
  k <> k' -> dict_get (dict_set d k v) k' = dict_get d k'.
Proof.
  intros Hne. induction d as [|[k0 v0] r IH]; simpl.
  - destruct (String.eqb_spec k k'); [contradiction | reflexivity].
  - destruct (String.eqb_spec k0 k) as [->|Hk]; simpl.
    + destruct (String.eqb_spec k k'); [contradiction | reflexivity].
    + destruct (String.eqb_spec k0 k'); [reflexivity | exact IH].
Qed.

Lemma sire_ne_dam : "sire" <> "dam".
Proof. discriminate. Qed.

Lemma dam_ne_sire : "dam" <> "sire".
Proof. discriminate. Qed.

#[local] Hint Resolve sire_ne_dam dam_ne_sire : core.

(** The two child keys of a node built by [fetch]. *)
Lemma node_children (pub : dict) (s d : value) :
  let t := dict_set (dict_set pub "sire" s) "dam" d in
  dict_get t "sire" = Some s /\ dict_get t "dam" = Some d
  /\ forall k, k <> "sire" -> k <> "dam" -> dict_get t k = dict_get pub k.
Proof.
  cbv zeta. repeat split.
  - rewrite dict_get_set_other by auto. apply dict_get_set_same.
  - apply dict_get_set_same.
  - intros k Hs Hd. rewrite !dict_get_set_other; auto.
Qed.

(** ** Stored dogs *)

Lemma stored_sire_id (o : ObjectId) (x : Dog.t) :
  get_or_none (stored o x) "sire_id" = opt_str_value (Dog.sire_id x).
Proof. reflexivity. Qed.

Lemma stored_dam_id (o : ObjectId) (x : Dog.t) :
  get_or_none (stored o x) "dam_id" = opt_str_value (Dog.dam_id x).
Proof. reflexivity. Qed.

Lemma to_public_stored (o : ObjectId) (x : Dog.t) :
  to_public (stored o x) = (Dog.model_dump x ++ [("id", VStr (Bson.str o))])%list.
Proof. reflexivity. Qed.

Lemma public_stored_no_sire (o : ObjectId) (x : Dog.t) :
  dict_get (to_public (stored o x)) "sire" = None.
Proof. reflexivity. Qed.

(** ** The walk of [fetch] *)

Lemma fetch_rel_branch db node recur acc rel :
  fetch_rel db node recur acc rel =
  match acc with
  | None => None
  | Some result =>
      option_map (dict_set result (PyStr.drop_last3 rel))
                 (branch db recur (get_or_none node rel))
  end.
Proof.
  unfold fetch_rel, branch. destruct acc as [result|]; [|reflexivity].
  destruct (truthy _); [|reflexivity].
  destruct (find_dog _ _) as [e|target]; [reflexivity|].
  destruct (present target) as [t|]; [|reflexivity].
  destruct (recur t); reflexivity.
Qed.

Lemma fold_pair {A B : Type} (f : A -> B -> A) (a b : B) (x : A) :
  fold_left f [a; b] x = f (f x a) b.
Proof. reflexivity. Qed.

Lemma fetch_at_bound fuel db depth node level :
  (depth <= level)%Z ->
  fetch (S fuel) db depth node level = Some (to_public node).
Proof.
  intros H. simpl. destruct (Z.geb_spec level depth); [reflexivity | lia].
Qed.

Lemma fetch_below_bound fuel db depth node level :
  (level < depth)%Z ->
  fetch (S fuel) db depth node level =
  let recur := fun t => fetch fuel db depth t (level + 1)%Z in
  match branch db recur (get_or_none node "sire_id") with
  | None => None
  | Some s =>
      match branch db recur (get_or_none node "dam_id") with
      | None => None
      | Some d => Some (dict_set (dict_set (to_public node) "sire" s) "dam" d)
      end
  end.
Proof.
  intros H. cbn [fetch]. destruct (Z.geb_spec level depth); [lia|].
  unfold rels. rewrite fold_pair. cbv zeta.
  rewrite (fetch_rel_branch db node _ (Some (to_public node)) "sire_id").
  change (PyStr.drop_last3 "sire_id") with "sire".
  destruct (branch _ _ (get_or_none node "sire_id")) as [s|];
    cbn [option_map]; rewrite fetch_rel_branch; [|reflexivity].
  change (PyStr.drop_last3 "dam_id") with "dam".
  destruct (branch _ _ (get_or_none node "dam_id")); reflexivity.
Qed.

Lemma branch_cases db recur nid v :
  branch db recur nid = Some v ->
  (v = VNone /\ unresolved db nid)
  \/ exists target sub,
       truthy nid = true /\ find_dog db nid = inr (Some target)
       /\ target <> [] /\ recur target = Some sub /\ v = VDict sub.
Proof.
  unfold branch, unresolved. destruct (truthy nid) eqn:Ht.
  - destruct (find_dog db nid) as [e|found] eqn:Hf.
    + intros [= <-]. left. split; [reflexivity|]. right. left. now exists e.
    + destruct (present found) as [t|] eqn:Hp.
      * destruct found as [[|kv r]|]; try discriminate. injection Hp as <-.
        destruct (recur (kv :: r)) as [sub|] eqn:Hr; [|discriminate].
        intros [= <-]. right. exists (kv :: r), sub. repeat split; auto.
        discriminate.
      * intros [= <-]. left. split; [reflexivity|]. right. right.
        exists found. auto.
  - intros [= <-]. left. split; [reflexivity|]. now left.
Qed.

Lemma branch_unresolved db recur nid :
  unresolved db nid -> branch db recur nid = Some VNone.
Proof.
  unfold branch. intros [H|[[e H]|[found [H Hp]]]]; rewrite ?H.
  - reflexivity.
  - now destruct (truthy nid).
  - destruct (truthy nid); [|reflexivity]. now rewrite Hp.
Qed.

Lemma branch_resolved db recur nid target :
  truthy nid = true -> find_dog db nid = inr (Some target) -> target <> [] ->
  branch db recur nid = option_map VDict (recur target).
Proof.
  unfold branch. intros -> -> Hne. destruct target; [contradiction|reflexivity].
Qed.

Lemma branch_total db recur nid :
  (forall t, exists sub, recur t = Some sub) ->
  exists v, branch db recur nid = Some v.
Proof.
  intros Hrec. unfold branch. destruct (truthy nid); [|eauto].
  destruct (find_dog db nid) as [e|found]; [eauto|].
  destruct (present found) as [t|]; [|eauto].
  destruct (Hrec t) as [sub ->]. simpl. eauto.
Qed.

Lemma budget_step depth level fuel :
  (level < depth)%Z -> (budget depth level <= S fuel)%nat ->
  (budget depth (level + 1) <= fuel)%nat.
Proof. unfold budget. lia. Qed.

Lemma budget_positive depth level fuel :
  (budget depth level <= fuel)%nat -> exists fuel', fuel = S fuel'.
Proof. unfold budget. destruct fuel; [lia | eauto]. Qed.

(** With its budget [fetch] returns. *)
Lemma fetch_returns fuel : forall db depth node level,
  (budget depth level <= fuel)%nat ->
  exists t, fetch fuel db depth node level = Some t.
Proof.
  induction fuel as [|fuel IH]; intros db depth node level Hb.
  - unfold budget in Hb. lia.
  - destruct (Z.lt_ge_cases level depth) as [Hlt|Hge].
    + rewrite fetch_below_bound by assumption. cbv zeta.
      assert (Hrec : forall t, exists sub,
                 fetch fuel db depth t (level + 1)%Z = Some sub).
      { intros t. apply IH. now apply budget_step. }
      destruct (branch_total db _ (get_or_none node "sire_id") Hrec) as [s ->].
      destruct (branch_total db _ (get_or_none node "dam_id") Hrec) as [d ->].
      eauto.
    + rewrite fetch_at_bound by assumption. eauto.
Qed.

(** Fuel beyond the budget does not change the answer. *)
Lemma fetch_more_fuel fuel : forall db depth node level t,
  fetch fuel db depth node level = Some t ->
  fetch (S fuel) db depth node level = Some t.
Proof.
  induction fuel as [|fuel IH]; intros db depth node level t H; [discriminate|].
  destruct (Z.lt_ge_cases level depth) as [Hlt|Hge].
  - rewrite fetch_below_bound in H |- * by assumption. cbv zeta in *.
    assert (Hb : forall nid v,
               branch db (fun t => fetch fuel db depth t (level + 1)%Z) nid = Some v ->
               branch db (fun t => fetch (S fuel) db depth t (level + 1)%Z) nid = Some v).
    { intros nid v Hv. destruct (branch_cases _ _ _ _ Hv)
        as [[-> Hu]|(target & sub & Ht & Hf & Hne & Hr & ->)].
      - now apply branch_unresolved.
      - rewrite (branch_resolved _ _ _ target) by assumption.
        now rewrite (IH _ _ _ _ _ Hr). }
    destruct (branch db _ (get_or_none node "sire_id")) as [s|] eqn:Hs;
      [|discriminate].
    destruct (branch db _ (get_or_none node "dam_id")) as [d|] eqn:Hd;
      [|discriminate].
    now rewrite (Hb _ _ Hs), (Hb _ _ Hd).
  - rewrite fetch_at_bound in H |- * by assumption. exact H.
Qed.

Lemma fetch_surplus_fuel extra : forall fuel db depth node level t,
  fetch fuel db depth node level = Some t ->
  fetch (fuel + extra) db depth node level = Some t.
Proof.
  induction extra as [|extra IH]; intros fuel db depth node level t H.
  - now rewrite Nat.add_0_r.
  - rewrite Nat.add_succ_r. apply fetch_more_fuel. now apply IH.
Qed.

(** ** The depth bound as the only guard *)

(** C2: the pedigree walk returns for every store, cyclic or not, every
    record and every depth: a call at [level] needs one unit of recursion
    budget for itself and one for each level still below the depth bound,
    and a larger budget gives the same tree. *)
Theorem fetch_terminates :
  forall (db : handle) (depth : Z) (node : dict) (level : Z) (extra : nat),
  exists t,
    fetch (budget depth level) db depth node level = Some t
    /\ fetch (budget depth level + extra) db depth node level = Some t.
Proof.
  intros db depth node level extra.
  destruct (fetch_returns (budget depth level) db depth node level (le_n _))
    as [t Ht].
  exists t. split; [exact Ht | now apply fetch_surplus_fuel].
Qed.

(** The endpoint answers as soon as the walk has its budget. *)
Lemma get_pedigree_returns db dog_id depth fuel :
  (budget depth 0 <= fuel)%nat ->
  exists answer, get_pedigree fuel db dog_id depth = Some answer.
Proof.
  intros Hb. unfold get_pedigree.
  destruct (find_dog db (VStr dog_id)) as [e|root]; [eauto|].
  destruct (present root) as [r|]; [|eauto].
  destruct (fetch_returns fuel db depth r 0 Hb) as [t ->]. eauto.
Qed.

(** ** Unresolvable references *)



(** ** The shape of the tree *)






(** ** Sire chains *)

Lemma sire_levels_dict (d : dict) :
  sire_levels (VDict d) =
  match dict_get d "sire" with
  | None | Some VNone => O
  | Some v => S (sire_levels v)
  end.
Proof.
  induction d as [|[k v] r IH]; [reflexivity|].
  simpl. destruct (String.eqb k "sire").
  - destruct v; reflexivity.
  - exact IH.
Qed.



Lemma found_text_is_truthy db s found :
  find_dog db (VStr s) = inr found -> truthy (VStr s) = true.
Proof.
  unfold find_dog. destruct db as [d|]; [|discriminate].
  simpl. unfold Bson.of_str, Bson.is_valid.
  destruct s; [simpl; discriminate | reflexivity].
Qed.

Section SireChain.

Variable db : handle.
Variable N : nat.
Variable dogs : nat -> Dog.t.
Variable ids : nat -> ObjectId.
Variable refs : nat -> string.
Variable D : Z.

(** Dog [k + 1] names dog [k] as its sire, through a text the store
    resolves to the record of dog [k]. *)
Hypothesis links : forall k, (k < N)%nat ->
  Dog.sire_id (dogs (S k)) = Some (refs k)
  /\ find_dog db (VStr (refs k)) = inr (Some (stored (ids k) (dogs k))).

(** Dog [0] has no sire. *)
Hypothesis founder : Dog.sire_id (dogs 0) = None.



End SireChain.



(** A record that names itself as its sire is expanded once per level:
    nothing but the depth bound stops the walk. *)
Lemma self_sire_is_unrolled (db : handle) (x : Dog.t) (o : ObjectId)
    (ref : string) (depth : Z) :
  Dog.sire_id x = Some ref ->
  find_dog db (VStr ref) = inr (Some (stored o x)) ->
  forall (fuel : nat) (level : Z),
    (budget depth level <= fuel)%nat ->
    exists t,
      fetch fuel db depth (stored o x) level = Some t
      /\ sire_levels (VDict t) = Z.to_nat (depth - level).
Proof.
  intros Hsire Hfind. induction fuel as [|fuel IH]; intros level Hb.
  - unfold budget in Hb. lia.
  - destruct (Z.lt_ge_cases level depth) as [Hlt|Hge].
    + rewrite fetch_below_bound by assumption. cbv zeta.
      rewrite stored_sire_id, Hsire. cbn [opt_str_value].
      rewrite (branch_resolved db _ _ (stored o x));
        [ | exact (found_text_is_truthy _ _ _ Hfind) | exact Hfind
          | discriminate ].
      destruct (IH (level + 1)%Z) as (sub & -> & Hsub);
        [now apply budget_step|].
      cbn [option_map].
      destruct (branch_total db (fun t => fetch fuel db depth t (level + 1)%Z)
                  (get_or_none (stored o x) "dam_id")) as [d ->].
      { intros t. apply fetch_returns. now apply budget_step. }
      eexists. split; [reflexivity|].
      rewrite sire_levels_dict.
      destruct (node_children (to_public (stored o x)) (VDict sub) d)
        as (-> & _).
      rewrite Hsub. lia.
    + rewrite fetch_at_bound by assumption. eexists. split; [reflexivity|].
      rewrite sire_levels_dict, public_stored_no_sire. lia.
Qed.

Example ouroboros_depth_5 :
  exists t,
    fetch 6 (Some Sample.kennel) 5 Sample.ouroboros 0 = Some t
    /\ sire_levels (VDict t) = 5%nat.
Proof.
  apply (self_sire_is_unrolled (Some Sample.kennel)
           (Sample.named "Ouroboros" (Some Sample.id_x) (Some "not-an-id"))
           (Sample.oid Sample.id_x) Sample.id_x 5 eq_refl eq_refl 6%nat 0%Z).
  unfold budget. simpl. lia.
Qed.

(** ** Looking a dog up by its identifier *)




(** C10: whatever exception the root lookup raises, a malformed
    identifier or a missing store handle alike, both endpoints answer 400
    "Invalid ID"; without a store handle the lookup raises for every
    identifier, the well-formed ones included. *)
Theorem lookup_failure_is_invalid_id :
  forall (db : handle) (dog_id : string) (depth : Z) (fuel : nat),
    ((exists e, find_dog db (VStr dog_id) = inl e) ->
     get_dog db dog_id = Raise (HTTPException 400 "Invalid ID")
     /\ get_pedigree fuel db dog_id depth
        = Some (Raise (HTTPException 400 "Invalid ID")))
    /\ get_dog None dog_id = Raise (HTTPException 400 "Invalid ID")
    /\ get_pedigree fuel None dog_id depth
       = Some (Raise (HTTPException 400 "Invalid ID")).
Proof.
  intros db dog_id depth fuel. split; [|split; reflexivity].
  intros [e He]. unfold get_dog, get_pedigree. rewrite He. split; reflexivity.
Qed.

Lemma lookup_failure_is_invalid_id_witness :
  Bson.is_valid Sample.id_a = true
  /\ get_dog None Sample.id_a = Raise (HTTPException 400 "Invalid ID")
  /\ get_pedigree 4 None Sample.id_a 3
     = Some (Raise (HTTPException 400 "Invalid ID")).
Proof.
  split; [reflexivity|].
  destruct (lookup_failure_is_invalid_id None Sample.id_a 3 4) as (H & _).
  apply H. exists TypeError. reflexivity.
Defined.

(** ** Searching by name *)

Lemma plain_char_token (c : ascii) :
  Regex.is_meta c = false ->
  Ascii.eqb c "\" = false /\ Regex.plain_token c = Regex.TAtom (Regex.Lit c).
Proof.
  intros H. pose proof H as Hm. unfold Regex.is_meta, Regex.metachars in H.
  cbn [Regex.mem_char] in H.
  repeat (apply orb_false_elim in H; destruct H as [? H]).
  unfold Regex.plain_token.
  rewrite !(Ascii.eqb_sym c), Hm.
  repeat match goal with E : Ascii.eqb _ c = false |- _ => rewrite E; clear E end.
  split; reflexivity.
Qed.

Lemma parse_plain (q : string) :
  plain q = true -> Regex.parse q = Some (literal q).
Proof.
  unfold Regex.parse, plain. induction q as [|c r IH]; [reflexivity|].
  cbn [PyStr.all_chars]. intros H. apply andb_prop in H. destruct H as [Hc Hr].
  apply negb_true_iff in Hc. destruct (plain_char_token c Hc) as [Hb Ht].
  cbn [Regex.tokens]. rewrite Hb, Ht.
  specialize (IH Hr). cbn [literal].
  destruct r as [|c' r'].
  - reflexivity.
  - cbn [PyStr.all_chars] in Hr. apply andb_prop in Hr. destruct Hr as [Hc' _].
    apply negb_true_iff in Hc'. destruct (plain_char_token c' Hc') as [Hb' Ht'].
    cbn [Regex.tokens] in IH |- *. rewrite Hb', Ht' in IH |- *.
    cbn [Regex.items] in IH |- *.
    change (Regex.items (Regex.TAtom (Regex.Lit c) :: Regex.TAtom (Regex.Lit c') :: Regex.tokens r'))
      with (option_map (cons (Regex.Lit c, Regex.One))
              (Regex.items (Regex.TAtom (Regex.Lit c') :: Regex.tokens r'))).
    now rewrite IH.
Qed.

Lemma match_here_literal (q s : string) :
  Regex.match_here true (literal q) s
  = PyStr.startswith (PyStr.lower q) (PyStr.lower s).
Proof.
  revert s. induction q as [|c r IH]; intros s; [reflexivity|].
  destruct s as [|x s']; [reflexivity|].
  cbn [literal Regex.match_here Regex.one Regex.accepts PyStr.lower
       PyStr.startswith].
  now rewrite IH.
Qed.

Lemma search_literal (q s : string) :
  Regex.search true (literal q) s
  = PyStr.contains (PyStr.lower q) (PyStr.lower s).
Proof.
  induction s as [|x s' IH].
  - cbn [Regex.search PyStr.contains PyStr.lower]. now rewrite match_here_literal.
  - cbn [Regex.search PyStr.contains PyStr.lower].
    rewrite match_here_literal, IH. reflexivity.
Qed.

Lemma selects_plain (q : string) :
  plain q = true ->
  exists keep,
    selects (QNameRegex q "i") = Some keep
    /\ forall doc, keep doc = name_contains q doc.
Proof.
  intros H. unfold selects. rewrite (parse_plain q H).
  eexists. split; [reflexivity|].
  intros doc. unfold name_contains.
  destruct (dict_get doc "name") as [[]|]; try reflexivity.
  change (Regex.mem_char "i" "i") with true. apply search_literal.
Qed.




(** ** Creating a dog *)

(** C7, as the code has it: a create request whose [name] is missing or is
    not text is rejected with a validation error (422) and the store is
    left as it was; a body holding only a text [name], empty or not, is
    accepted and its record is stored. *)
Theorem create_requires_text_name :
  forall (db : handle) (d : Database) (body : value) (s : string),
    (name_text body = None ->
     exists field,
       create_dog db body = (db, Raise (RequestValidationError field))
       /\ status_of (RequestValidationError field) = 422%Z)
    /\ create_dog (Some d) (VDict [("name", VStr s)])
       = (Some (MkDatabase
                  (dog d ++ [stored (Bson.MkObjectId (Bson.hex_digits 24 (minted d)))
                               (Dog.Make s None None None None None None []
                                  None None)])%list
                  (minted d + 1)%N),
          Return [("id", VStr (Bson.hex_digits 24 (minted d)))]).
Proof.
  intros db d body s. split; [|reflexivity].
  intros H. unfold create_dog, DogCreate.validate.
  destruct body as [| | | | |fields]; try (exists "body"; split; reflexivity).
  unfold Dog.validate, field_str. simpl in H.
  exists "name".
  destruct (dict_get fields "name") as [[]|]; try discriminate H;
    split; reflexivity.
Qed.

Lemma create_requires_text_name_witness :
  create_dog (Some Sample.yard) (VDict [("color", VStr "red")])
  = (Some Sample.yard, Raise (RequestValidationError "name")).
Proof.
  destruct (create_requires_text_name (Some Sample.yard) Sample.yard
              (VDict [("color", VStr "red")]) "") as (H & _).
  destruct (H eq_refl) as (field & Hc & _).
  rewrite Hc. vm_compute in Hc. injection Hc as <-. reflexivity.
Defined.

(** C7, as stated, fails for an empty name: the request is accepted and a
    record with the empty name is stored. *)
Lemma empty_name_is_accepted :
  exists db' new_id,
    create_dog (Some Sample.yard) (VDict [("name", VStr "")])
    = (Some db', Return [("id", VStr new_id)])
    /\ List.length (dog db') = S (List.length (dog Sample.yard))
    /\ exists doc, find_dog (Some db') (VStr new_id) = inr (Some doc)
                   /\ dict_get doc "name" = Some (VStr "").
Proof.
  eexists. eexists. split; [vm_compute; reflexivity|].
  split; [reflexivity|]. eexists. split; [vm_compute; reflexivity|].
  reflexivity.
Qed.

(** ** Strings of the importer *)

Lemma length_replicate (n : nat) (c : ascii) :
  String.length (replicate n c) = n.
Proof. induction n as [|n IH]; simpl; [reflexivity | now rewrite IH]. Qed.

Lemma startswith_append (p a b : string) :
  PyStr.startswith p a = true -> PyStr.startswith p (a ++ b) = true.
Proof.
  revert a. induction p as [|x p IH]; intros a H; [reflexivity|].
  destruct a as [|y a]; [discriminate|]. simpl in *.
  apply andb_prop in H. destruct H as [-> H]. now apply IH.
Qed.

(** [split_head] cuts at the leftmost occurrence of the separator: the
    head is followed by the separator or by nothing, and holds no
    occurrence itself. *)
Lemma split_head_spec (sep s : string) :
  PyStr.nonempty sep = true ->
  exists rest,
    s = PyStr.split_head sep s ++ rest
    /\ (rest = "" \/ PyStr.startswith sep rest = true)
    /\ PyStr.contains sep (PyStr.split_head sep s) = false.
Proof.
  intros Hsep. induction s as [|c r (rest & Heq & Hrest & Hno)].
  - exists "". repeat split; [now left|]. destruct sep; [discriminate|reflexivity].
  - cbn [PyStr.split_head]. destruct (PyStr.startswith sep (String c r)) eqn:Hst.
    + exists (String c r). repeat split; [now right|].
      destruct sep; [discriminate|reflexivity].
    + exists rest. repeat split.
      * simpl. now rewrite <- Heq.
      * exact Hrest.
      * cbn [PyStr.contains]. rewrite Hno, orb_false_r.
        destruct (PyStr.startswith sep (String c (PyStr.split_head sep r)))
          eqn:Hst'; [|reflexivity].
        apply (startswith_append _ _ rest) in Hst'. simpl in Hst'.
        rewrite <- Heq in Hst'. congruence.
Qed.

Lemma lstrip_spec (s : string) :
  exists pre, s = pre ++ PyStr.lstrip s /\ PyStr.all_chars PyStr.isspace pre = true.
Proof.
  induction s as [|c r (pre & Heq & Hpre)].
  - exists "". split; reflexivity.
  - cbn [PyStr.lstrip]. destruct (PyStr.isspace c) eqn:Hc.
    + exists (String c pre). split; [simpl; now rewrite <- Heq|].
      simpl. now rewrite Hc.
    + exists "". split; reflexivity.
Qed.

Lemma rstrip_spec (s : string) :
  exists post, s = PyStr.rstrip s ++ post
               /\ PyStr.all_chars PyStr.isspace post = true.
Proof.
  induction s as [|c r (post & Heq & Hpost)].
  - exists "". split; reflexivity.
  - cbn [PyStr.rstrip]. destruct (PyStr.rstrip r) as [|x r'] eqn:Hr.
    + destruct (PyStr.isspace c) eqn:Hc.
      * exists (String c post). split; [simpl in *; now rewrite <- Heq|].
        simpl. now rewrite Hc.
      * exists post. split; [simpl in *; now rewrite <- Heq | exact Hpost].
    + exists post. split; [simpl in *; now rewrite <- Heq | exact Hpost].
Qed.

(** [strip] removes a run of whitespace at either end and nothing else. *)
Lemma strip_spec (s : string) :
  exists pre post,
    s = pre ++ PyStr.strip s ++ post
    /\ PyStr.all_chars PyStr.isspace pre = true
    /\ PyStr.all_chars PyStr.isspace post = true.
Proof.
  destruct (lstrip_spec s) as (pre & Heq & Hpre).
  destruct (rstrip_spec (PyStr.lstrip s)) as (post & Heq' & Hpost).
  exists pre, post. unfold PyStr.strip. split; [|split; assumption].
  now rewrite <- Heq', <- Heq.
Qed.

(** ** Importing a page *)




(** C9, as the code has it: the page is requested with a timeout of 10,
    and when that request fails the answer is 400 with the detail
    "Failed to fetch: " followed by the whole message of the failure; the
    store is left as it was. *)
Theorem import_fetch_failure :
  forall (w : World) (db : handle) (url cause : string),
    requests_get w url 10 = FetchRaised cause ->
    import_from_op w db url
    = (db, Raise (HTTPException 400 ("Failed to fetch: " ++ cause)))
    /\ status_of (HTTPException 400 ("Failed to fetch: " ++ cause)) = 400%Z.
Proof.
  intros w db url cause H. unfold import_from_op. rewrite H.
  split; reflexivity.
Qed.

Lemma import_fetch_failure_witness :
  import_from_op Sample.offline (Some Sample.yard) "http://example.invalid/"
  = (Some Sample.yard,
     Raise (HTTPException 400 ("Failed to fetch: " ++ Sample.long_cause))).
Proof.
  apply (import_fetch_failure Sample.offline (Some Sample.yard)
           "http://example.invalid/" Sample.long_cause eq_refl).
Defined.

(** C9, as stated, fails on the truncation: no bound holds for the length
    of the detail, which grows with the message of the failure. *)
Lemma fetch_failure_detail_is_not_truncated :
  ~ exists bound : nat,
      forall (w : World) (db : handle) (url cause : string),
        requests_get w url 10 = FetchRaised cause ->
        exists detail,
          snd (import_from_op w db url) = Raise (HTTPException 400 detail)
          /\ (String.length detail <= bound)%nat.
Proof.
  intros [bound H].
  destruct (H (MkWorld (fun _ _ => FetchRaised (replicate (S bound) "x"))
                 (fun _ => NoTitle))
              None "" (replicate (S bound) "x") eq_refl)
    as (detail & Hd & Hlen).
  cbn [import_from_op requests_get snd] in Hd. injection Hd as <-.
  simpl in Hlen. rewrite length_replicate in Hlen. lia.
Qed.

(* ================================================================== *)
(** * Further properties of the handlers *)

(** ** More on dictionaries *)

Lemma dict_get_absent (d : dict) (k : string) :
  ~ In k (keys d) -> dict_get d k = None.
Proof.
  induction d as [|[k' v] r IH]; [reflexivity|]. simpl. intros H.
  destruct (String.eqb_spec k' k) as [->|Hne]; [tauto|]. apply IH. tauto.
Qed.

Lemma dict_get_present (d : dict) (k : string) (v : value) :
  dict_get d k = Some v -> In k (keys d).
Proof.
  induction d as [|[k' v'] r IH]; [discriminate|]. simpl.
  destruct (String.eqb_spec k' k) as [->|Hne]; [now left|].
  intros H. right. now apply IH.
Qed.

Lemma dict_get_pop_other (d : dict) (k k' : string) :
  k <> k' -> dict_get (dict_pop d k) k' = dict_get d k'.
Proof.
  intros Hne. induction d as [|[k0 v0] r IH]; [reflexivity|]. simpl.
  destruct (String.eqb_spec k0 k) as [->|Hk]; simpl.
  - destruct (String.eqb_spec k k'); [contradiction | reflexivity].
  - destruct (String.eqb_spec k0 k'); [reflexivity | exact IH].
Qed.

Lemma keys_pop_incl (d : dict) (k x : string) :
  In x (keys (dict_pop d k)) -> In x (keys d).
Proof.
  induction d as [|[k0 v0] r IH]; [tauto|]. simpl.
  destruct (String.eqb k0 k); simpl; tauto.
Qed.

Lemma well_keyed_pop (d : dict) (k : string) :
  well_keyed d -> well_keyed (dict_pop d k) /\ dict_get (dict_pop d k) k = None.
Proof.
  unfold well_keyed. induction d as [|[k0 v0] r IH]; simpl; intros H.
  - split; [constructor | reflexivity].
  - inversion H as [|? ? Hnotin Hr]; subst.
    destruct (String.eqb_spec k0 k) as [->|Hk].
    + split; [exact Hr | now apply dict_get_absent].
    + destruct (IH Hr) as [Hw Hg]. split.
      * simpl. constructor; [|exact Hw].
        intros Hin. apply Hnotin. now apply keys_pop_incl in Hin.
      * simpl. destruct (String.eqb_spec k0 k); [contradiction | exact Hg].
Qed.

Lemma keys_set_incl (d : dict) (k x : string) (v : value) :
  In x (keys (dict_set d k v)) -> x = k \/ In x (keys d).
Proof.
  induction d as [|[k0 v0] r IH]; simpl.
  - intros [<-|[]]. now left.
  - destruct (String.eqb_spec k0 k) as [->|Hk]; simpl.
    + intros [<-|H]; [now left | right; now right].
    + intros [<-|H]; [right; now left|].
      destruct (IH H) as [->|Hin]; [now left | right; now right].
Qed.

Lemma well_keyed_set (d : dict) (k : string) (v : value) :
  well_keyed d -> well_keyed (dict_set d k v).
Proof.
  unfold well_keyed. induction d as [|[k0 v0] r IH]; simpl; intros H.
  - constructor; [tauto | constructor].
  - inversion H as [|? ? Hnotin Hr]; subst.
    destruct (String.eqb_spec k0 k) as [->|Hk]; simpl.
    + now constructor.
    + constructor; [|now apply IH].
      intros Hin. destruct (keys_set_incl _ _ _ _ Hin) as [->|Hin'];
        [contradiction | now apply Hnotin].
Qed.

(** ** [to_public] *)

Lemma to_public_with_oid (doc : dict) (o : ObjectId) :
  dict_get doc "_id" = Some (VOid o) ->
  to_public doc = dict_set (dict_pop doc "_id") "id" (VStr (Bson.str o)).
Proof.
  intros H. unfold to_public. destruct doc; [discriminate|]. now rewrite H.
Qed.

Lemma to_public_without_oid (doc : dict) :
  (forall o, dict_get doc "_id" <> Some (VOid o)) -> to_public doc = doc.
Proof.
  intros H. unfold to_public. destruct doc as [|kv r]; [reflexivity|].
  destruct (dict_get (kv :: r) "_id") as [[]|] eqn:E; try reflexivity.
  exfalso. now apply (H o).
Qed.


Lemma public_hides_key (doc : dict) (o : ObjectId) :
  dict_get doc "_id" = Some (VOid o) -> well_keyed doc ->
  dict_get (to_public doc) "_id" = None.
Proof.
  intros H Hw. rewrite (to_public_with_oid doc o H).
  rewrite dict_get_set_other by discriminate.
  now destruct (well_keyed_pop doc "_id" Hw).
Qed.

(** X1: a document stored under an [ObjectId] goes public with that
    identifier printed under ["id"] and every other field as it was; when
    the document holds each key once, ["_id"] is gone. *)
Theorem to_public_renames_id :
  forall (doc : dict) (o : ObjectId),
    dict_get doc "_id" = Some (VOid o) ->
    dict_get (to_public doc) "id" = Some (VStr (Bson.str o))
    /\ (forall k, k <> "id" -> k <> "_id" ->
                  dict_get (to_public doc) k = dict_get doc k)
    /\ (well_keyed doc ->
        dict_get (to_public doc) "_id" = None /\ well_keyed (to_public doc)).
Proof.
  intros doc o H.
  rewrite (to_public_with_oid doc o H).
  split; [apply dict_get_set_same|]. split.
  - intros k Hid Hkey. rewrite dict_get_set_other by congruence.
    apply dict_get_pop_other. congruence.
  - intros Hw. destruct (well_keyed_pop doc "_id" Hw) as [Hw' Hg]. split.
    + rewrite dict_get_set_other by discriminate. exact Hg.
    + now apply well_keyed_set.
Qed.

Lemma to_public_renames_id_witness :
  dict_get (to_public Sample.grand) "id" = Some (VStr Sample.id_a)
  /\ dict_get (to_public Sample.grand) "_id" = None.
Proof.
  destruct (to_public_renames_id Sample.grand (Sample.oid Sample.id_a) eq_refl)
    as (Hid & _ & Hw).
  split; [exact Hid|]. apply Hw.
  unfold well_keyed. simpl.
  repeat (constructor; [simpl; intuition discriminate|]). constructor.
Defined.

(** X2: a document without an [ObjectId] under ["_id"] (no such key, or
    another kind of value there) is returned as it is, and the public form
    of a public form is itself. *)
Theorem to_public_idempotent :
  forall (doc : dict),
    ((forall o, dict_get doc "_id" <> Some (VOid o)) -> to_public doc = doc)
    /\ (well_keyed doc -> to_public (to_public doc) = to_public doc).
Proof.
  intros doc. split; [apply to_public_without_oid|].
  intros Hw. destruct (dict_get doc "_id") as [[| | |o| |]|] eqn:E;
    try (rewrite (to_public_without_oid doc) by (intros o'; congruence);
         apply to_public_without_oid; intros o'; congruence).
  pose proof (public_hides_key doc o E Hw) as Hnone.
  apply to_public_without_oid. intros o'. congruence.
Qed.

Lemma to_public_idempotent_witness :
  to_public (to_public Sample.pup) = to_public Sample.pup.
Proof.
  destruct (to_public_idempotent Sample.pup) as [_ H]. apply H.
  unfold well_keyed. simpl.
  repeat (constructor; [simpl; intuition discriminate|]). constructor.
Defined.

(** ** Lookups *)

Lemma oid_eqb_eq (a b : ObjectId) : Bson.eqb a b = true -> a = b.
Proof.
  destruct a as [x], b as [y]. unfold Bson.eqb. simpl.
  intros H. apply String.eqb_eq in H. now subst.
Qed.

Lemma find_one_found (coll : collection) (o : ObjectId) (doc : dict) :
  find_one coll o = Some doc ->
  In doc coll /\ dict_get doc "_id" = Some (VOid o).
Proof.
  unfold find_one. intros H. apply find_some in H. destruct H as [Hin Hid].
  split; [exact Hin|]. unfold has_id in Hid.
  destruct (dict_get doc "_id") as [[| | |o'| |]|]; try discriminate.
  now rewrite (oid_eqb_eq _ _ Hid).
Qed.

Lemma find_dog_found (db : handle) (nid : value) (doc : dict) :
  find_dog db nid = inr (Some doc) ->
  exists d o, db = Some d /\ ObjectId_of nid = inr o
              /\ In doc (dog d) /\ dict_get doc "_id" = Some (VOid o).
Proof.
  unfold find_dog. destruct db as [d|]; [|discriminate].
  destruct (ObjectId_of nid) as [e|o]; [discriminate|].
  intros [= H]. destruct (find_one_found _ _ _ H). eauto 6.
Qed.



(** ** The pedigree against the plain lookup *)

(** X4: [get_pedigree] fails exactly when [get_dog] fails on the same
    identifier, with the same error; when [get_dog] returns a record, the
    root of the tree has that record's fields under every key but
    ["sire"] and ["dam"], and for a depth of zero or less the tree is that
    record. *)
Theorem pedigree_root_agrees_with_get_dog :
  forall (db : handle) (dog_id : string) (depth : Z) (fuel : nat),
    (budget depth 0 <= fuel)%nat ->
    match get_dog db dog_id with
    | Raise e => get_pedigree fuel db dog_id depth = Some (Raise e)
    | Return pub =>
        exists tree,
          get_pedigree fuel db dog_id depth = Some (Return tree)
          /\ ((depth <= 0)%Z -> tree = pub)
          /\ (forall k, k <> "sire" -> k <> "dam" ->
                        dict_get tree k = dict_get pub k)
    end.
Proof.
  intros db dog_id depth fuel Hb. unfold get_dog, get_pedigree.
  destruct (find_dog db (VStr dog_id)) as [e|found]; [reflexivity|].
  destruct (present found) as [root|]; [|reflexivity].
  destruct (budget_positive _ _ _ Hb) as [fuel' ->].
  destruct (Z.lt_ge_cases 0 depth) as [Hlt|Hge].
  - destruct (fetch_returns (S fuel') db depth root 0 Hb) as [t Ht].
    rewrite Ht. exists t. split; [reflexivity|]. split; [lia|].
    rewrite fetch_below_bound in Ht by assumption. cbv zeta in Ht.
    destruct (branch db _ (get_or_none root "sire_id")) as [s|];
      [|discriminate].
    destruct (branch db _ (get_or_none root "dam_id")) as [d|];
      [|discriminate].
    injection Ht as <-.
    now destruct (node_children (to_public root) s d) as (_ & _ & Hk).
  - rewrite fetch_at_bound by assumption. exists (to_public root).
    repeat split; reflexivity.
Qed.

Lemma pedigree_root_agrees_with_get_dog_witness :
  get_pedigree 1 (Some Sample.kennel) Sample.id_c 0
  = Some (Return (to_public Sample.pup))
  /\ get_pedigree 1 (Some Sample.kennel) Sample.id_free 0
     = Some (Raise (HTTPException 404 "Dog not found")).
Proof.
  split.
  - pose proof (pedigree_root_agrees_with_get_dog (Some Sample.kennel)
                  Sample.id_c 0 1 (le_n 1)) as H.
    change (get_dog (Some Sample.kennel) Sample.id_c)
      with (Return (to_public Sample.pup)) in H.
    destruct H as (tree & -> & Heq & _). rewrite Heq by lia. reflexivity.
  - exact (pedigree_root_agrees_with_get_dog (Some Sample.kennel)
             Sample.id_free 0 1 (le_n 1)).
Defined.



(** ** The size of a pedigree *)

Lemma stored_leaf_nodes (o : ObjectId) (x : Dog.t) :
  tree_nodes (VDict (to_public (stored o x))) = 1%nat.
Proof. reflexivity. Qed.

Lemma stored_inner_nodes (o : ObjectId) (x : Dog.t) (s d : value) :
  tree_nodes (VDict (dict_set (dict_set (to_public (stored o x)) "sire" s)
                       "dam" d))
  = S (tree_nodes s + tree_nodes d).
Proof.
  rewrite to_public_stored.
  change (tree_nodes (VDict (dict_set (dict_set
            (Dog.model_dump x ++ [("id", VStr (Bson.str o))])%list
            "sire" s) "dam" d)))
    with (S (0 + (0 + (0 + (0 + (0 + (0 + (0 + (0 + (0 + (0 + (0 +
            (tree_nodes s + (tree_nodes d + 0)))))))))))))).
  lia.
Qed.

Lemma pow2_positive (n : nat) : (1 <= 2 ^ n)%nat.
Proof. induction n as [|n IH]; simpl; lia. Qed.

Lemma branch_nodes_bound (db : handle) (recur : dict -> option dict)
    (nid v : value) (bound : nat) :
  schema_store db ->
  (forall o x sub, recur (stored o x) = Some sub ->
                   (tree_nodes (VDict sub) <= bound)%nat) ->
  branch db recur nid = Some v ->
  (tree_nodes v <= bound)%nat.
Proof.
  intros Hstore Hrec Hv.
  destruct (branch_cases _ _ _ _ Hv)
    as [[-> _]|(target & sub & _ & Hfind & _ & Hr & ->)]; [simpl; lia|].
  destruct (find_dog_found _ _ _ Hfind) as (d & o & Hdb & _ & Hin & _).
  destruct (Hstore d Hdb target Hin) as (o' & x & ->).
  exact (Hrec _ _ _ Hr).
Qed.

Lemma fetch_nodes_bound (fuel : nat) :
  forall (db : handle) (depth : Z) (o : ObjectId) (x : Dog.t) (level : Z)
         (t : dict),
    schema_store db ->
    fetch fuel db depth (stored o x) level = Some t ->
    (tree_nodes (VDict t) <= 2 ^ S (Z.to_nat (depth - level)) - 1)%nat.
Proof.
  induction fuel as [|fuel IH]; intros db depth o x level t Hstore H;
    [discriminate|].
  destruct (Z.lt_ge_cases level depth) as [Hlt|Hge].
  - rewrite fetch_below_bound in H by assumption. cbv zeta in H.
    destruct (branch db _ (get_or_none (stored o x) "sire_id")) as [s|] eqn:Hs;
      [|discriminate].
    destruct (branch db _ (get_or_none (stored o x) "dam_id")) as [d|] eqn:Hd;
      [|discriminate].
    assert (Et : t = dict_set (dict_set (to_public (stored o x)) "sire" s)
                       "dam" d) by congruence.
    rewrite Et, stored_inner_nodes. clear H Et.
    assert (Hsub : forall o' x' sub,
               fetch fuel db depth (stored o' x') (level + 1) = Some sub ->
               (tree_nodes (VDict sub)
                <= 2 ^ S (Z.to_nat (depth - (level + 1))) - 1)%nat).
    { intros o' x' sub Hf. now apply (IH db depth o' x'). }
    pose proof (branch_nodes_bound _ _ _ _ _ Hstore Hsub Hs) as Bs.
    pose proof (branch_nodes_bound _ _ _ _ _ Hstore Hsub Hd) as Bd.
    replace (Z.to_nat (depth - level))
      with (S (Z.to_nat (depth - (level + 1)))) by lia.
    pose proof (pow2_positive (S (Z.to_nat (depth - (level + 1))))) as Hpos.
    rewrite (Nat.pow_succ_r' 2 (S (Z.to_nat (depth - (level + 1))))). lia.
  - rewrite fetch_at_bound in H by assumption.
    assert (Et : t = to_public (stored o x)) by congruence.
    rewrite Et, stored_leaf_nodes.
    pose proof (pow2_positive (S (Z.to_nat (depth - level)))).
    replace (Z.to_nat (depth - level)) with 0%nat in * by lia. simpl. lia.
Qed.

(** X6: over a store that holds schema dogs only, a pedigree of depth
    bound [depth] has at most [2 ^ (depth + 1) - 1] nodes, whatever cycles
    the parent references form. *)
Theorem pedigree_size_bound :
  forall (db : handle) (dog_id : string) (depth : Z) (fuel : nat) (tree : dict),
    schema_store db ->
    get_pedigree fuel db dog_id depth = Some (Return tree) ->
    (tree_nodes (VDict tree) <= 2 ^ S (Z.to_nat depth) - 1)%nat.
Proof.
  intros db dog_id depth fuel tree Hstore. unfold get_pedigree.
  destruct (find_dog db (VStr dog_id)) as [e|found] eqn:Hf; [discriminate|].
  destruct found as [[|kv r]|]; try discriminate. cbn [present].
  destruct (fetch fuel db depth (kv :: r) 0) as [t|] eqn:Ht; [|discriminate].
  intros [= <-].
  destruct (find_dog_found _ _ _ Hf) as (d & o & Hdb & _ & Hin & _).
  destruct (Hstore d Hdb _ Hin) as (o' & x & Hdoc). rewrite Hdoc in Ht.
  apply fetch_nodes_bound in Ht; [|exact Hstore].
  now rewrite Z.sub_0_r in Ht.
Qed.

Lemma kennel_is_schema_store : schema_store (Some Sample.kennel).
Proof.
  intros d [= <-] doc Hin. simpl in Hin.
  destruct Hin as [<-|[<-|[<-|[<-|[]]]]]; eexists; eexists; reflexivity.
Defined.

Lemma pedigree_size_bound_witness :
  exists tree,
    get_pedigree 5 (Some Sample.kennel) Sample.id_x 4 = Some (Return tree)
    /\ (tree_nodes (VDict tree) <= 31)%nat.
Proof.
  eexists. split; [vm_compute; reflexivity|].
  apply (pedigree_size_bound (Some Sample.kennel) Sample.id_x 4 5 _
           kennel_is_schema_store).
  vm_compute. reflexivity.
Defined.

(** ** The schema *)

Lemma all_str_map (l : list string) : all_str (map VStr l) = Some l.
Proof. induction l as [|a l IH]; simpl; [reflexivity | now rewrite IH]. Qed.

Lemma field_opt_str_dumped (d : dict) (k : string) (o : option string) :
  dict_get d k = Some (opt_str_value o) -> field_opt_str d k = inr o.
Proof. unfold field_opt_str. intros ->. now destruct o. Qed.

Lemma field_opt_int_dumped (d : dict) (k : string) (o : option Z) :
  dict_get d k = Some (opt_int_value o) -> field_opt_int d k = inr o.
Proof. unfold field_opt_int. intros ->. now destruct o. Qed.

Lemma field_str_list_dumped (d : dict) (k : string) (l : list string) :
  dict_get d k = Some (VList (map VStr l)) -> field_str_list d k = inr l.
Proof. unfold field_str_list. intros ->. now rewrite all_str_map. Qed.

Lemma validate_dumped (x : Dog.t) : Dog.validate (Dog.model_dump x) = inr x.
Proof.
  unfold Dog.validate.
  change (field_str (Dog.model_dump x) "name") with (@inr string _ (Dog.name x)).
  rewrite (field_opt_int_dumped (Dog.model_dump x) "op_id" (Dog.op_id x) eq_refl).
  rewrite (field_opt_str_dumped (Dog.model_dump x) "sex" (Dog.sex x) eq_refl).
  rewrite (field_opt_str_dumped (Dog.model_dump x) "color" (Dog.color x) eq_refl).
  rewrite (field_opt_str_dumped (Dog.model_dump x) "birth_date" (Dog.birth_date x) eq_refl).
  rewrite (field_opt_str_dumped (Dog.model_dump x) "sire_id" (Dog.sire_id x) eq_refl).
  rewrite (field_opt_str_dumped (Dog.model_dump x) "dam_id" (Dog.dam_id x) eq_refl).
  rewrite (field_str_list_dumped (Dog.model_dump x) "tags" (Dog.tags x) eq_refl).
  rewrite (field_opt_str_dumped (Dog.model_dump x) "source_url" (Dog.source_url x) eq_refl).
  rewrite (field_opt_str_dumped (Dog.model_dump x) "notes" (Dog.notes x) eq_refl).
  now destruct x.
Qed.

(** X7: dumping a dog and validating the dump gives the dog back, so the
    second validation in [create_dog], [Dog] applied to the dumped
    payload, never fails: no request makes [create_dog] raise a
    [ValidationError]. *)
Theorem dump_then_validate :
  forall (x : Dog.t),
    Dog.validate (Dog.model_dump x) = inr x
    /\ forall (db : handle) (body : value) (field : string),
         snd (create_dog db body) <> Raise (ValidationError field).
Proof.
  intros x. split; [apply validate_dumped|].
  intros db body field. unfold create_dog.
  destruct (DogCreate.validate body) as [f|payload]; [discriminate|].
  unfold DogCreate.model_dump. rewrite validate_dumped.
  unfold create_document. destruct db; discriminate.
Qed.

(** X8: [create_dog] leaves the store as it was whenever it raises; when
    it returns, the body passed validation and the store holds the
    records it held, in their order, followed by one new record with the
    validated fields, kept under the identifier returned. *)
Theorem create_dog_appends_or_leaves :
  forall (db : handle) (body : value),
    match create_dog db body with
    | (db', Raise _) => db' = db
    | (db', Return answer) =>
        exists d x new_id,
          db = Some d
          /\ DogCreate.validate body = inr x
          /\ answer = [("id", VStr new_id)]
          /\ db' = Some (MkDatabase
                           (dog d ++ [stored (Bson.MkObjectId new_id) x])%list
                           (minted d + 1)%N)
    end.
Proof.
  intros db body. unfold create_dog.
  destruct (DogCreate.validate body) as [f|x]; [reflexivity|].
  unfold DogCreate.model_dump. rewrite validate_dumped.
  destruct db as [d|]; [|reflexivity]. cbn [create_document].
  exists d, x, (Bson.hex_digits 24 (minted d)). repeat split.
Qed.

Lemma validate_reads_fields (d1 d2 : dict) :
  (forall f, In f dog_fields -> dict_get d1 f = dict_get d2 f) ->
  Dog.validate d1 = Dog.validate d2.
Proof.
  intros H. unfold Dog.validate, field_str, field_opt_str, field_opt_int,
    field_str_list.
  rewrite (H "name"), (H "op_id"), (H "sex"), (H "color"), (H "birth_date"),
    (H "sire_id"), (H "dam_id"), (H "tags"), (H "source_url"), (H "notes");
    try reflexivity; unfold dog_fields; simpl; tauto.
Qed.

(** X9: only the ten declared fields of a body count: two bodies that
    agree on them, whatever other keys they carry and in whatever order,
    are treated alike by [create_dog]. *)
Theorem create_dog_reads_declared_fields :
  forall (db : handle) (d1 d2 : dict),
    (forall f, In f dog_fields -> dict_get d1 f = dict_get d2 f) ->
    create_dog db (VDict d1) = create_dog db (VDict d2).
Proof.
  intros db d1 d2 H. unfold create_dog, DogCreate.validate.
  now rewrite (validate_reads_fields d1 d2 H).
Qed.

Lemma create_dog_reads_declared_fields_witness :
  create_dog (Some Sample.yard)
    (VDict [("name", VStr "Ace"); ("color", VStr "red")])
  = create_dog (Some Sample.yard)
      (VDict [("kennel", VStr "North"); ("color", VStr "red");
              ("name", VStr "Ace")]).
Proof.
  apply create_dog_reads_declared_fields.
  intros f Hf. unfold dog_fields in Hf. simpl in Hf.
  repeat (destruct Hf as [<-|Hf]; [reflexivity|]). destruct Hf.
Defined.

(** ** Listing *)

Lemma filter_all {A : Type} (l : list A) : filter (fun _ => true) l = l.
Proof. induction l as [|a l IH]; simpl; [reflexivity | now rewrite IH]. Qed.

(** X10: without a search text, or with the empty one, every record
    qualifies: the answer is the public forms of the first [limit] records
    in store order, and of all of them when [limit] reaches their number. *)
Theorem list_dogs_without_pattern :
  forall (d : Database) (q : option string) (limit : option Z),
    q = None \/ q = Some "" ->
    let lim := match limit with Some n => n | None => 50%Z end in
    list_dogs (Some d) q limit
    = Some (Return (map to_public (firstn (Z.to_nat lim) (dog d))))
    /\ ((Z.of_nat (List.length (dog d)) <= lim)%Z ->
        list_dogs (Some d) q limit = Some (Return (map to_public (dog d)))).
Proof.
  intros d q limit Hq lim.
  assert (H : list_dogs (Some d) q limit
              = Some (Return (map to_public (firstn (Z.to_nat lim) (dog d))))).
  { destruct Hq as [-> | ->]; unfold list_dogs, get_documents; simpl;
      now rewrite filter_all. }
  split; [exact H|]. intros Hall. rewrite H.
  now rewrite firstn_all2 by lia.
Qed.

Lemma list_dogs_without_pattern_witness :
  list_dogs (Some Sample.kennel) (Some "") (Some 2%Z)
  = Some (Return [to_public Sample.grand; to_public Sample.father]).
Proof.
  destruct (list_dogs_without_pattern Sample.kennel (Some "") (Some 2%Z))
    as [H _]; [now right|]. exact H.
Defined.

(** X11: the search does not tell letter case apart: two non-empty search
    texts without metacharacters that are equal up to case give the same
    answer. *)
Theorem search_ignores_case :
  forall (db : handle) (q1 q2 : string) (limit : option Z),
    PyStr.nonempty q1 = true ->
    plain q1 = true -> plain q2 = true ->
    PyStr.lower q1 = PyStr.lower q2 ->
    list_dogs db (Some q1) limit = list_dogs db (Some q2) limit.
Proof.
  intros db q1 q2 limit Hn H1 H2 Hlow.
  assert (Hn2 : PyStr.nonempty q2 = true).
  { destruct q2; [destruct q1; discriminate | reflexivity]. }
  destruct (selects_plain q1 H1) as (k1 & Hs1 & Hk1).
  destruct (selects_plain q2 H2) as (k2 & Hs2 & Hk2).
  unfold list_dogs, get_documents. rewrite Hn, Hn2, Hs1, Hs2.
  destruct db as [d|]; [|reflexivity].
  rewrite (filter_ext k1 k2); [reflexivity|].
  intros doc. rewrite Hk1, Hk2. unfold name_contains. now rewrite Hlow.
Qed.

Lemma search_ignores_case_witness :
  list_dogs (Some Sample.yard) (Some "REX") None
  = list_dogs (Some Sample.yard) (Some "rex") None.
Proof.
  apply search_ignores_case; reflexivity.
Defined.

(** ** Identifiers handed out by the store *)

Lemma all_chars_append (p : ascii -> bool) (a b : string) :
  PyStr.all_chars p (a ++ b) = PyStr.all_chars p a && PyStr.all_chars p b.
Proof.
  induction a as [|c a IH]; simpl; [reflexivity|].
  now rewrite IH, andb_assoc.
Qed.

Lemma string_length_append (a b : string) :
  String.length (a ++ b) = (String.length a + String.length b)%nat.
Proof. induction a as [|c a IH]; simpl; [reflexivity | now rewrite IH]. Qed.

Lemma lower_append (a b : string) :
  PyStr.lower (a ++ b) = PyStr.lower a ++ PyStr.lower b.
Proof. induction a as [|c a IH]; simpl; [reflexivity | now rewrite IH]. Qed.

Lemma hex_digit_canonical (m : N) :
  (m < 16)%N ->
  Bson.is_hex (Bson.hex_digit m) = true
  /\ PyStr.lower_char (Bson.hex_digit m) = Bson.hex_digit m.
Proof.
  intros H. rewrite <- (N2Nat.id m).
  assert (Hk : (N.to_nat m < 16)%nat) by lia.
  destruct (N.to_nat m) as [|k]; [split; reflexivity|].
  do 15 (destruct k as [|k]; [split; reflexivity|]). lia.
Qed.

Lemma hex_digits_canonical (k : nat) : forall n : N,
  String.length (Bson.hex_digits k n) = k
  /\ PyStr.all_chars Bson.is_hex (Bson.hex_digits k n) = true
  /\ PyStr.lower (Bson.hex_digits k n) = Bson.hex_digits k n.
Proof.
  induction k as [|k IH]; intros n; [repeat split|].
  cbn [Bson.hex_digits].
  destruct (IH (n / 16)%N) as (Hlen & Hhex & Hlow).
  destruct (hex_digit_canonical (n mod 16)%N) as [Hd Hl];
    [apply N.mod_lt; discriminate|].
  rewrite string_length_append, all_chars_append, lower_append.
  rewrite Hlen, Hhex, Hlow. cbn [String.length PyStr.all_chars PyStr.lower].
  rewrite Hd, Hl. repeat split. lia.
Qed.

(** The identifiers the store hands out parse back to themselves. *)
Lemma minted_id_parses (n : N) :
  Bson.of_str (Bson.hex_digits 24 n)
  = Some (Bson.MkObjectId (Bson.hex_digits 24 n)).
Proof.
  destruct (hex_digits_canonical 24 n) as (Hlen & Hhex & Hlow).
  unfold Bson.of_str, Bson.is_valid. now rewrite Hlen, Hhex, Hlow.
Qed.

Lemma find_appended {A : Type} (f : A -> bool) (l : list A) (x : A) :
  find f l = None -> f x = true -> find f (l ++ [x]) = Some x.
Proof.
  induction l as [|a l IH]; simpl; intros Hl Hx; [now rewrite Hx|].
  destruct (f a); [discriminate | now apply IH].
Qed.

Lemma has_own_id (o : ObjectId) (x : Dog.t) : has_id o (stored o x) = true.
Proof. unfold has_id, Bson.eqb. simpl. apply String.eqb_refl. Qed.

(** A record just written is found under the identifier returned, as long
    as no older record holds that identifier. *)
Lemma created_is_found (d : Database) (x : Dog.t) :
  find_one (dog d) (Bson.MkObjectId (Bson.hex_digits 24 (minted d))) = None ->
  exists db',
    create_document (Some d) x = (db', Return (Bson.hex_digits 24 (minted d)))
    /\ find_dog db' (VStr (Bson.hex_digits 24 (minted d)))
       = inr (Some (stored (Bson.MkObjectId (Bson.hex_digits 24 (minted d))) x)).
Proof.
  intros Hfresh. eexists. split; [reflexivity|].
  unfold find_dog. cbn [ObjectId_of]. rewrite minted_id_parses. cbn [dog].
  unfold find_one in *. f_equal.
  apply find_appended; [exact Hfresh | apply has_own_id].
Qed.

(** X12: a dog created through [create_dog] can be fetched at once: when
    no older record holds the new identifier, [get_dog] on the identifier
    returned gives the public form of the validated body, with that
    identifier under ["id"] and the name that was sent. *)
Theorem created_dog_can_be_fetched :
  forall (d : Database) (body : value) (db' : handle) (answer : dict),
    find_one (dog d) (Bson.MkObjectId (Bson.hex_digits 24 (minted d))) = None ->
    create_dog (Some d) body = (db', Return answer) ->
    exists new_id x pub,
      answer = [("id", VStr new_id)]
      /\ DogCreate.validate body = inr x
      /\ get_dog db' new_id = Return pub
      /\ dict_get pub "id" = Some (VStr new_id)
      /\ dict_get pub "name" = Some (VStr (Dog.name x))
      /\ name_text body = Some (Dog.name x).
Proof.
  intros d body db' answer Hfresh. unfold create_dog.
  destruct (DogCreate.validate body) as [f|x] eqn:Hval; [discriminate|].
  unfold DogCreate.model_dump. rewrite validate_dumped.
  destruct (created_is_found d x Hfresh) as (db1 & Hc & Hfind).
  rewrite Hc. intros [= <- <-].
  exists (Bson.hex_digits 24 (minted d)), x.
  exists (to_public (stored (Bson.MkObjectId (Bson.hex_digits 24 (minted d))) x)).
  split; [reflexivity|]. split; [reflexivity|]. split.
  - unfold get_dog. rewrite Hfind. reflexivity.
  - split; [reflexivity|]. split; [reflexivity|].
    unfold DogCreate.validate in Hval.
    destruct body as [| | | | |fields]; try discriminate.
    unfold Dog.validate, field_str in Hval. cbn [name_text].
    destruct (dict_get fields "name") as [[| |nm| | |]|]; try discriminate.
    cbn [bind] in Hval.
    destruct (field_opt_int fields "op_id"); [discriminate|].
    destruct (field_opt_str fields "sex"); [discriminate|].
    destruct (field_opt_str fields "color"); [discriminate|].
    destruct (field_opt_str fields "birth_date"); [discriminate|].
    destruct (field_opt_str fields "sire_id"); [discriminate|].
    destruct (field_opt_str fields "dam_id"); [discriminate|].
    destruct (field_str_list fields "tags"); [discriminate|].
    destruct (field_opt_str fields "source_url"); [discriminate|].
    destruct (field_opt_str fields "notes"); [discriminate|].
    cbn [bind] in Hval.
    apply (f_equal (fun r : checked Dog.t =>
                      match r with inr y => Some (Dog.name y) | inl _ => None end))
      in Hval.
    exact Hval.
Qed.

Lemma created_dog_can_be_fetched_witness :
  exists db' new_id pub,
    create_dog (Some Sample.yard) (VDict [("name", VStr "Ace")])
    = (db', Return [("id", VStr new_id)])
    /\ get_dog db' new_id = Return pub
    /\ dict_get pub "name" = Some (VStr "Ace").
Proof.
  destruct (created_dog_can_be_fetched Sample.yard
              (VDict [("name", VStr "Ace")])
              (fst (create_dog (Some Sample.yard) (VDict [("name", VStr "Ace")])))
              [("id", VStr "000000000000000000000002")] eq_refl eq_refl)
    as (new_id & x & pub & Hans & _ & Hget & _ & Hname & Htext).
  injection Hans as <-. injection Htext as Htext. rewrite <- Htext in Hname.
  exists (fst (create_dog (Some Sample.yard) (VDict [("name", VStr "Ace")]))).
  exists "000000000000000000000002", pub.
  split; [reflexivity|]. split; [exact Hget | exact Hname].
Defined.

(** X17: the handlers write schema dogs only: when every record of the
    store is a schema dog kept under an [ObjectId], so is every record
    after [create_dog] and after [import_from_op], whatever they were
    sent. *)
Theorem handlers_keep_schema_store :
  forall (w : World) (db : handle) (body : value) (url : string),
    schema_store db ->
    schema_store (fst (create_dog db body))
    /\ schema_store (fst (import_from_op w db url)).
Proof.
  intros w db body url Hstore.
  assert (Hdoc : forall x, schema_store (fst (create_document db x))).
  { intros x. destruct db as [d|]; [|exact Hstore]. cbn [create_document fst].
    intros d' [= <-] doc Hin. cbn [dog] in Hin. apply in_app_or in Hin.
    destruct Hin as [Hin|[<-|[]]]; [exact (Hstore d eq_refl doc Hin)|].
    eexists. eexists. reflexivity. }
  split.
  - unfold create_dog. destruct (DogCreate.validate body) as [f|x];
      [exact Hstore|].
    unfold DogCreate.model_dump. rewrite validate_dumped.
    specialize (Hdoc x). destruct (create_document db x) as [db' [id|e]];
      exact Hdoc.
  - unfold import_from_op. destruct (requests_get w url 10) as [cause|text];
      [exact Hstore|].
    match goal with |- context [create_document db ?x] =>
      specialize (Hdoc x); destruct (create_document db x) as [db' [id|e]]
    end; exact Hdoc.
Qed.

Lemma handlers_keep_schema_store_witness :
  schema_store (fst (create_dog (Some Sample.kennel)
                       (VDict [("name", VStr "Ace")]))).
Proof.
  destruct (handlers_keep_schema_store Sample.offline (Some Sample.kennel)
              (VDict [("name", VStr "Ace")]) "" kennel_is_schema_store)
    as [H _]. exact H.
Defined.

(** ** The name an import stores *)

Lemma rstrip_idempotent (s : string) :
  PyStr.rstrip (PyStr.rstrip s) = PyStr.rstrip s.
Proof.
  induction s as [|c r IH]; [reflexivity|]. cbn [PyStr.rstrip].
  destruct (PyStr.rstrip r) as [|x r'] eqn:Hr.
  - destruct (PyStr.isspace c) eqn:Hc; [reflexivity|].
    cbn [PyStr.rstrip]. now rewrite Hc.
  - cbn [PyStr.rstrip]. cbn [PyStr.rstrip] in IH. rewrite IH.
    destruct (PyStr.rstrip r') eqn:Hr'; [|reflexivity].
    destruct (PyStr.isspace x); [discriminate | reflexivity].
Qed.

Lemma lstrip_head (s : string) :
  match PyStr.lstrip s with
  | EmptyString => True
  | String c _ => PyStr.isspace c = false
  end.
Proof.
  induction s as [|c r IH]; [exact I|]. cbn [PyStr.lstrip].
  destruct (PyStr.isspace c) eqn:Hc; [exact IH | exact Hc].
Qed.

Lemma rstrip_keeps_head (s : string) :
  match s with
  | EmptyString => True
  | String c _ => PyStr.isspace c = false
  end ->
  PyStr.lstrip (PyStr.rstrip s) = PyStr.rstrip s.
Proof.
  destruct s as [|c r]; [reflexivity|]. intros Hc. cbn [PyStr.rstrip].
  destruct (PyStr.rstrip r); rewrite ?Hc; cbn [PyStr.lstrip]; now rewrite Hc.
Qed.

Lemma strip_idempotent (s : string) :
  PyStr.strip (PyStr.strip s) = PyStr.strip s.
Proof.
  unfold PyStr.strip.
  rewrite (rstrip_keeps_head (PyStr.lstrip s) (lstrip_head s)).
  apply rstrip_idempotent.
Qed.

Lemma contains_empty (s : string) : PyStr.contains "" s = true.
Proof. destruct s; reflexivity. Qed.

Lemma contains_append_r (p b c : string) :
  PyStr.contains p b = true -> PyStr.contains p (b ++ c) = true.
Proof.
  induction b as [|x b IH]; cbn [PyStr.contains append].
  - rewrite orb_false_r. destruct p; [|discriminate].
    intros _. apply contains_empty.
  - intros H. apply orb_prop in H. destruct H as [H|H].
    + apply (startswith_append _ _ c) in H. cbn [append] in H.
      now rewrite H.
    + rewrite (IH H). apply orb_true_r.
Qed.

Lemma contains_append_l (p a x : string) :
  PyStr.contains p x = true -> PyStr.contains p (a ++ x) = true.
Proof.
  intros H. induction a as [|c a IH]; [exact H|].
  cbn [append PyStr.contains]. rewrite IH. apply orb_true_r.
Qed.

Lemma strip_keeps_out (p s : string) :
  PyStr.contains p s = false -> PyStr.contains p (PyStr.strip s) = false.
Proof.
  intros H. destruct (PyStr.contains p (PyStr.strip s)) eqn:E; [|reflexivity].
  destruct (strip_spec s) as (pre & post & Heq & _).
  apply (contains_append_r _ _ post) in E.
  apply (contains_append_l _ pre) in E. rewrite <- Heq in E. congruence.
Qed.

Lemma chosen_name_is_clean (p : parsed) :
  let nm := name_or_placeholder (guess_name p) in
  PyStr.nonempty nm = true
  /\ PyStr.strip nm = nm
  /\ PyStr.contains "- " nm = false.
Proof.
  cbv zeta. unfold guess_name.
  destruct p as [| |[title|]]; try (repeat split; reflexivity).
  destruct (PyStr.nonempty title); [|repeat split; reflexivity].
  cbn [name_or_placeholder].
  destruct (PyStr.nonempty (PyStr.strip (PyStr.split_head "- " title))) eqn:Hn;
    [|repeat split; reflexivity].
  split; [exact Hn|]. split; [apply strip_idempotent|].
  apply strip_keeps_out.
  now destruct (split_head_spec "- " title eq_refl) as (rest & _ & _ & Hno).
Qed.

(** X13: whatever page comes back, the name an import stores and reports
    is never empty, has no whitespace at either end, and holds no "- "
    separator. *)
Theorem imported_name_is_clean :
  forall (w : World) (db db' : handle) (url : string) (answer : dict),
    import_from_op w db url = (db', Return answer) ->
    exists new_id nm,
      answer = [("id", VStr new_id); ("name", VStr nm)]
      /\ PyStr.nonempty nm = true
      /\ PyStr.strip nm = nm
      /\ PyStr.contains "- " nm = false.
Proof.
  intros w db db' url answer. unfold import_from_op.
  destruct (requests_get w url 10) as [cause|text]; [discriminate|].
  destruct db as [d|]; cbn [create_document]; [|discriminate].
  intros [= _ <-]. eexists. eexists. split; [reflexivity|].
  apply chosen_name_is_clean.
Qed.

Lemma imported_name_is_clean_witness :
  exists new_id nm,
    snd (import_from_op (Sample.serving "   - Online Pedigree")
           (Some Sample.yard) "http://apbt.online-pedigrees.com/1")
    = Return [("id", VStr new_id); ("name", VStr nm)]
    /\ PyStr.nonempty nm = true.
Proof.
  destruct (imported_name_is_clean (Sample.serving "   - Online Pedigree")
              (Some Sample.yard)
              (fst (import_from_op (Sample.serving "   - Online Pedigree")
                      (Some Sample.yard) "http://apbt.online-pedigrees.com/1"))
              "http://apbt.online-pedigrees.com/1"
              [("id", VStr "000000000000000000000002");
               ("name", VStr "Imported Dog")] eq_refl)
    as (new_id & nm & Hans & Hn & _).
  exists new_id, nm. split; [|exact Hn]. rewrite <- Hans. reflexivity.
Defined.

(** X14: a dog stored by an import can be fetched at once under the
    identifier returned, as long as no older record holds it: the record
    has the reported name, the requested URL and the fixed note, no
    parents, and its pedigree at any positive depth has null under both
    ["sire"] and ["dam"]. *)
Theorem imported_dog_can_be_fetched :
  forall (w : World) (d : Database) (url text : string) (depth : Z) (fuel : nat),
    requests_get w url 10 = Fetched text ->
    find_one (dog d) (Bson.MkObjectId (Bson.hex_digits 24 (minted d))) = None ->
    (0 < depth)%Z ->
    (budget depth 0 <= fuel)%nat ->
    exists db' new_id nm pub tree,
      import_from_op w (Some d) url
      = (db', Return [("id", VStr new_id); ("name", VStr nm)])
      /\ get_dog db' new_id = Return pub
      /\ dict_get pub "id" = Some (VStr new_id)
      /\ dict_get pub "name" = Some (VStr nm)
      /\ dict_get pub "source_url" = Some (VStr url)
      /\ dict_get pub "notes" = Some (VStr import_note)
      /\ get_pedigree fuel db' new_id depth = Some (Return tree)
      /\ dict_get tree "sire" = Some VNone
      /\ dict_get tree "dam" = Some VNone.
Proof.
  intros w d url text depth fuel Hget Hfresh Hdepth Hb.
  set (nm := name_or_placeholder (guess_name (soup_title w text))).
  destruct (created_is_found d (imported_dog nm url) Hfresh)
    as (db' & Hc & Hfind).
  set (new_id := Bson.hex_digits 24 (minted d)) in *.
  set (doc := stored (Bson.MkObjectId new_id) (imported_dog nm url)) in *.
  destruct (budget_positive _ _ _ Hb) as [fuel' ->].
  exists db', new_id, nm, (to_public doc).
  exists (dict_set (dict_set (to_public doc) "sire" VNone) "dam" VNone).
  split; [|split; [|repeat split]].
  - unfold import_from_op. rewrite Hget. fold nm. now rewrite Hc.
  - unfold get_dog. rewrite Hfind. reflexivity.
  - unfold get_pedigree. rewrite Hfind.
    change (present (Some doc)) with (Some doc). cbv beta iota.
    rewrite fetch_below_bound by assumption. reflexivity.
Qed.

Lemma imported_dog_can_be_fetched_witness :
  exists db' new_id pub,
    import_from_op (Sample.serving "Rex - Online Pedigree") (Some Sample.yard)
      "http://apbt.online-pedigrees.com/rex"
    = (db', Return [("id", VStr new_id); ("name", VStr "Rex")])
    /\ get_dog db' new_id = Return pub
    /\ dict_get pub "source_url"
       = Some (VStr "http://apbt.online-pedigrees.com/rex").
Proof.
  destruct (imported_dog_can_be_fetched (Sample.serving "Rex - Online Pedigree")
              Sample.yard "http://apbt.online-pedigrees.com/rex"
              "Rex - Online Pedigree" 1 2 eq_refl eq_refl)
    as (db' & new_id & nm & pub & tree & Himp & Hget & _ & _ & Hurl & _);
    [lia | unfold budget; simpl; lia |].
  exists db', new_id, pub. split; [|split; [exact Hget | exact Hurl]].
  rewrite Himp. vm_compute in Himp. injection Himp as _ _ <-. reflexivity.
Defined.

(** ** The diagnostic report *)




(** X15: the diagnostic report always has the same six keys and always
    says the backend runs; its ["database"] entry never keeps the initial
    "Not Available" text; without a store handle it reports "Not
    Connected" with no name, no URL status and no collections, even when
    the connection string is set; with a handle it reports "Connected"
    and the name of the database. *)
Theorem diagnostic_report_shape :
  forall (database_url : option string) (db : option Connection),
    let r := test_database database_url db in
    keys r = ["backend"; "database"; "database_url"; "database_name";
              "connection_status"; "collections"]
    /\ dict_get r "backend" = Some (VStr "✅ Running")
    /\ dict_get r "database" <> Some (VStr "❌ Not Available")
    /\ (db = None ->
        dict_get r "connection_status" = Some (VStr "Not Connected")
        /\ dict_get r "database_name" = Some VNone
        /\ dict_get r "database_url" = Some VNone
        /\ dict_get r "collections" = Some (VList []))
    /\ (forall c, db = Some c ->
        dict_get r "connection_status" = Some (VStr "Connected")
        /\ dict_get r "database_name" = Some (VStr (conn_name c))).
Proof.
  intros database_url db. cbv zeta. unfold test_database.
  destruct db as [[nm [e|names]]|]; cbn [list_collection_names conn_name].
  - split; [reflexivity|]. split; [reflexivity|]. split; [discriminate|].
    split; [discriminate|]. intros c' [= <-]. split; reflexivity.
  - split; [reflexivity|]. split; [reflexivity|]. split; [discriminate|].
    split; [discriminate|]. intros c' [= <-]. split; reflexivity.
  - split; [reflexivity|]. split; [reflexivity|]. split; [discriminate|].
    split; [intros _; repeat split | discriminate].
Qed.

Lemma diagnostic_report_shape_witness :
  dict_get (test_database (Some "mongodb://localhost") None) "database_url"
  = Some VNone
  /\ dict_get (test_database None (Some Family.busy)) "connection_status"
     = Some (VStr "Connected").
Proof.
  split.
  - destruct (diagnostic_report_shape (Some "mongodb://localhost") None)
      as (_ & _ & _ & H & _). now apply H.
  - destruct (diagnostic_report_shape None (Some Family.busy))
      as (_ & _ & _ & _ & H). now apply (H Family.busy).
Defined.



Example slow_store_report :
  dict_get (test_database None (Some Family.broken)) "database"
  = Some (VStr "⚠️  Connected but Error: HTTPSConnectionPool(host='apbt.online-pedigrees.com', port=443): Max retries exc").
Proof. reflexivity. Qed.
